(** * A PDF viewer with two-page spreads and a page-flip animation

    Shallow embedding of [src/main.py] (class [PDFViewer]) and the properties
    of its navigation, zoom, scale-resolution and animation logic.

    Conventions of the embedding:
    - Python [int] is [Z]; Python [float] is idealised as an exact rational
      [Q] (no rounding error), and results on floats are stated up to [==];
    - the attributes of [self] and the state of the Tk widgets the code
      reads or writes form one record, [Viewer], threaded through a
      state-and-exception monad; an exception leaves the viewer in the state it
      had when it was raised, which is what the Tk event loop then keeps;
    - PyMuPDF ([fitz]) and the rasteriser are external: opening a path and the
      pixel size of a rasterised page are parameters of the development. *)

From Stdlib Require Import ZArith QArith Qminmax Qabs Qround String Bool Lia Lqa.
From Stdlib Require Import DecimalString.
From stdpp Require Import base list.

Local Open Scope Z_scope.

(** ** Python built-ins used by the viewer *)

Module Py.

(** [int(x)] on a float: truncation toward zero. *)
Definition int (x : Q) : Z := Z.quot (Qnum x) (Zpos (Qden x)).

(** [round(x)] on a float: nearest integer, ties to the even one. *)
Definition round (x : Q) : Z :=
  let f := Qfloor x in
  match Qcompare (x - inject_Z f) (1 # 2) with
  | Lt => f
  | Gt => f + 1
  | Eq => if Z.even f then f else f + 1
  end.

(** [sorted(xs)]: a stable sort, here by insertion from the right. *)
Fixpoint insort {A} (leb : A -> A -> bool) (x : A) (l : list A) : list A :=
  match l with
  | [] => [x]
  | y :: l' => if leb x y then x :: l else y :: insort leb x l'
  end.

Definition sorted {A} (leb : A -> A -> bool) (l : list A) : list A :=
  foldr (insort leb) [] l.

(** [sorted((a, b, c))[1]]. *)
Definition sorted3_1 {A} (leb : A -> A -> bool) (a b c : A) : A :=
  nth 1 (sorted leb [a; b; c]) b.

(** [min(a, b)] and [max(a, b)] return the first extremal argument. *)
Definition minZ (a b : Z) : Z := if b <? a then b else a.
Definition maxZ (a b : Z) : Z := if a <? b then b else a.
Definition minQ (a b : Q) : Q := if Qlt_le_dec b a then b else a.
Definition maxQ (a b : Q) : Q := if Qlt_le_dec a b then b else a.

End Py.

(** ** The external collaborators: PyMuPDF documents and PIL images *)

Module fitz.

Record Rect := mkRect { width : Q; height : Q }.
Record Page := mkPage { rect : Rect }.

(** A document object: its pages and whether [close()] was called. *)
Record Document := mkDocument { pages : list Page; is_closed : bool }.

(** [len(doc)] on a document that is not closed; on a closed one
    [__len__] raises ValueError. *)
Definition len (d : Document) : Z := Z.of_nat (length (pages d)).

Definition close (d : Document) : Document :=
  {| pages := pages d; is_closed := true |}.

(** [doc.load_page(i)]: refused on a closed document and for
    [i >= len(doc)]. A negative [i], which PyMuPDF counts from the end, is
    refused here as well: the viewer never passes one, its page index and
    flip target being clamped at 0. *)
Definition load_page (d : Document) (i : Z) : option Page :=
  if is_closed d then None
  else if i <? 0 then None
  else pages d !! Z.to_nat i.

End fitz.

Module Image.

(** A PIL image: its pixel size, and, standing for its pixels, the pages
    (index and render scale) it depicts from left to right. *)
Record t := mk { width : Z; height : Z; shows : list (Z * Q) }.

(** [img.resize((w, h), LANCZOS)]. *)
Definition resize (img : t) (w h : Z) : t :=
  {| width := w; height := h; shows := shows img |}.

End Image.

(** ** The viewer *)

(** The attributes of [PDFViewer] set in [__init__] (and [target_page_index],
    which exists only once an animation has started), the slider
    [page_scale], the canvas, the pending [after] callbacks of the event
    loop, and the store of document objects, addressed by [doc]. *)
Record Viewer := mkViewer {
  heap : list fitz.Document;
  doc : option nat;
  page_count : Z;
  page_index : Z;
  zoom : Q;
  fit_mode : bool;
  dual_page_mode : bool;
  filepath : option string;
  is_animating : bool;
  animation_direction : Z;
  animation_progress : Q;
  target_page_index : option Z;
  page_scale_to : Z;
  page_scale_value : Q;
  canvas_width : Z;
  canvas_height : Z;
  canvas_image : option (Z * Z * Image.t);
  after_pending : nat
}.

(** [self.pad]. *)
Definition pad : Z := 12.

(** Attribute assignment, one setter per field. *)

Definition set_heap (v : list fitz.Document) (s : Viewer) : Viewer :=
  {| heap := v; doc := doc s; page_count := page_count s;
     page_index := page_index s; zoom := zoom s; fit_mode := fit_mode s;
     dual_page_mode := dual_page_mode s; filepath := filepath s;
     is_animating := is_animating s;
     animation_direction := animation_direction s;
     animation_progress := animation_progress s;
     target_page_index := target_page_index s;
     page_scale_to := page_scale_to s; page_scale_value := page_scale_value s;
     canvas_width := canvas_width s; canvas_height := canvas_height s;
     canvas_image := canvas_image s; after_pending := after_pending s |}.

Definition set_doc (v : option nat) (s : Viewer) : Viewer :=
  {| heap := heap s; doc := v; page_count := page_count s;
     page_index := page_index s; zoom := zoom s; fit_mode := fit_mode s;
     dual_page_mode := dual_page_mode s; filepath := filepath s;
     is_animating := is_animating s;
     animation_direction := animation_direction s;
     animation_progress := animation_progress s;
     target_page_index := target_page_index s;
     page_scale_to := page_scale_to s; page_scale_value := page_scale_value s;
     canvas_width := canvas_width s; canvas_height := canvas_height s;
     canvas_image := canvas_image s; after_pending := after_pending s |}.

Definition set_page_count (v : Z) (s : Viewer) : Viewer :=
  {| heap := heap s; doc := doc s; page_count := v;
     page_index := page_index s; zoom := zoom s; fit_mode := fit_mode s;
     dual_page_mode := dual_page_mode s; filepath := filepath s;
     is_animating := is_animating s;
     animation_direction := animation_direction s;
     animation_progress := animation_progress s;
     target_page_index := target_page_index s;
     page_scale_to := page_scale_to s; page_scale_value := page_scale_value s;
     canvas_width := canvas_width s; canvas_height := canvas_height s;
     canvas_image := canvas_image s; after_pending := after_pending s |}.

Definition set_page_index (v : Z) (s : Viewer) : Viewer :=
  {| heap := heap s; doc := doc s; page_count := page_count s;
     page_index := v; zoom := zoom s; fit_mode := fit_mode s;
     dual_page_mode := dual_page_mode s; filepath := filepath s;
     is_animating := is_animating s;
     animation_direction := animation_direction s;
     animation_progress := animation_progress s;
     target_page_index := target_page_index s;
     page_scale_to := page_scale_to s; page_scale_value := page_scale_value s;
     canvas_width := canvas_width s; canvas_height := canvas_height s;
     canvas_image := canvas_image s; after_pending := after_pending s |}.

Definition set_zoom (v : Q) (s : Viewer) : Viewer :=
  {| heap := heap s; doc := doc s; page_count := page_count s;
     page_index := page_index s; zoom := v; fit_mode := fit_mode s;
     dual_page_mode := dual_page_mode s; filepath := filepath s;
     is_animating := is_animating s;
     animation_direction := animation_direction s;
     animation_progress := animation_progress s;
     target_page_index := target_page_index s;
     page_scale_to := page_scale_to s; page_scale_value := page_scale_value s;
     canvas_width := canvas_width s; canvas_height := canvas_height s;
     canvas_image := canvas_image s; after_pending := after_pending s |}.

Definition set_fit_mode (v : bool) (s : Viewer) : Viewer :=
  {| heap := heap s; doc := doc s; page_count := page_count s;
     page_index := page_index s; zoom := zoom s; fit_mode := v;
     dual_page_mode := dual_page_mode s; filepath := filepath s;
     is_animating := is_animating s;
     animation_direction := animation_direction s;
     animation_progress := animation_progress s;
     target_page_index := target_page_index s;
     page_scale_to := page_scale_to s; page_scale_value := page_scale_value s;
     canvas_width := canvas_width s; canvas_height := canvas_height s;
     canvas_image := canvas_image s; after_pending := after_pending s |}.

Definition set_dual_page_mode (v : bool) (s : Viewer) : Viewer :=
  {| heap := heap s; doc := doc s; page_count := page_count s;
     page_index := page_index s; zoom := zoom s; fit_mode := fit_mode s;
     dual_page_mode := v; filepath := filepath s;
     is_animating := is_animating s;
     animation_direction := animation_direction s;
     animation_progress := animation_progress s;
     target_page_index := target_page_index s;
     page_scale_to := page_scale_to s; page_scale_value := page_scale_value s;
     canvas_width := canvas_width s; canvas_height := canvas_height s;
     canvas_image := canvas_image s; after_pending := after_pending s |}.

Definition set_filepath (v : option string) (s : Viewer) : Viewer :=
  {| heap := heap s; doc := doc s; page_count := page_count s;
     page_index := page_index s; zoom := zoom s; fit_mode := fit_mode s;
     dual_page_mode := dual_page_mode s; filepath := v;
     is_animating := is_animating s;
     animation_direction := animation_direction s;
     animation_progress := animation_progress s;
     target_page_index := target_page_index s;
     page_scale_to := page_scale_to s; page_scale_value := page_scale_value s;
     canvas_width := canvas_width s; canvas_height := canvas_height s;
     canvas_image := canvas_image s; after_pending := after_pending s |}.

Definition set_is_animating (v : bool) (s : Viewer) : Viewer :=
  {| heap := heap s; doc := doc s; page_count := page_count s;
     page_index := page_index s; zoom := zoom s; fit_mode := fit_mode s;
     dual_page_mode := dual_page_mode s; filepath := filepath s;
     is_animating := v; animation_direction := animation_direction s;
     animation_progress := animation_progress s;
     target_page_index := target_page_index s;
     page_scale_to := page_scale_to s; page_scale_value := page_scale_value s;
     canvas_width := canvas_width s; canvas_height := canvas_height s;
     canvas_image := canvas_image s; after_pending := after_pending s |}.

Definition set_animation_direction (v : Z) (s : Viewer) : Viewer :=
  {| heap := heap s; doc := doc s; page_count := page_count s;
     page_index := page_index s; zoom := zoom s; fit_mode := fit_mode s;
     dual_page_mode := dual_page_mode s; filepath := filepath s;
     is_animating := is_animating s; animation_direction := v;
     animation_progress := animation_progress s;
     target_page_index := target_page_index s;
     page_scale_to := page_scale_to s; page_scale_value := page_scale_value s;
     canvas_width := canvas_width s; canvas_height := canvas_height s;
     canvas_image := canvas_image s; after_pending := after_pending s |}.

Definition set_animation_progress (v : Q) (s : Viewer) : Viewer :=
  {| heap := heap s; doc := doc s; page_count := page_count s;
     page_index := page_index s; zoom := zoom s; fit_mode := fit_mode s;
     dual_page_mode := dual_page_mode s; filepath := filepath s;
     is_animating := is_animating s;
     animation_direction := animation_direction s; animation_progress := v;
     target_page_index := target_page_index s;
     page_scale_to := page_scale_to s; page_scale_value := page_scale_value s;
     canvas_width := canvas_width s; canvas_height := canvas_height s;
     canvas_image := canvas_image s; after_pending := after_pending s |}.

Definition set_target_page_index (v : option Z) (s : Viewer) : Viewer :=
  {| heap := heap s; doc := doc s; page_count := page_count s;
     page_index := page_index s; zoom := zoom s; fit_mode := fit_mode s;
     dual_page_mode := dual_page_mode s; filepath := filepath s;
     is_animating := is_animating s;
     animation_direction := animation_direction s;
     animation_progress := animation_progress s; target_page_index := v;
     page_scale_to := page_scale_to s; page_scale_value := page_scale_value s;
     canvas_width := canvas_width s; canvas_height := canvas_height s;
     canvas_image := canvas_image s; after_pending := after_pending s |}.

Definition set_page_scale_to (v : Z) (s : Viewer) : Viewer :=
  {| heap := heap s; doc := doc s; page_count := page_count s;
     page_index := page_index s; zoom := zoom s; fit_mode := fit_mode s;
     dual_page_mode := dual_page_mode s; filepath := filepath s;
     is_animating := is_animating s;
     animation_direction := animation_direction s;
     animation_progress := animation_progress s;
     target_page_index := target_page_index s; page_scale_to := v;
     page_scale_value := page_scale_value s; canvas_width := canvas_width s;
     canvas_height := canvas_height s; canvas_image := canvas_image s;
     after_pending := after_pending s |}.

Definition set_page_scale_value (v : Q) (s : Viewer) : Viewer :=
  {| heap := heap s; doc := doc s; page_count := page_count s;
     page_index := page_index s; zoom := zoom s; fit_mode := fit_mode s;
     dual_page_mode := dual_page_mode s; filepath := filepath s;
     is_animating := is_animating s;
     animation_direction := animation_direction s;
     animation_progress := animation_progress s;
     target_page_index := target_page_index s;
     page_scale_to := page_scale_to s; page_scale_value := v;
     canvas_width := canvas_width s; canvas_height := canvas_height s;
     canvas_image := canvas_image s; after_pending := after_pending s |}.

Definition set_canvas_width (v : Z) (s : Viewer) : Viewer :=
  {| heap := heap s; doc := doc s; page_count := page_count s;
     page_index := page_index s; zoom := zoom s; fit_mode := fit_mode s;
     dual_page_mode := dual_page_mode s; filepath := filepath s;
     is_animating := is_animating s;
     animation_direction := animation_direction s;
     animation_progress := animation_progress s;
     target_page_index := target_page_index s;
     page_scale_to := page_scale_to s; page_scale_value := page_scale_value s;
     canvas_width := v; canvas_height := canvas_height s;
     canvas_image := canvas_image s; after_pending := after_pending s |}.

Definition set_canvas_height (v : Z) (s : Viewer) : Viewer :=
  {| heap := heap s; doc := doc s; page_count := page_count s;
     page_index := page_index s; zoom := zoom s; fit_mode := fit_mode s;
     dual_page_mode := dual_page_mode s; filepath := filepath s;
     is_animating := is_animating s;
     animation_direction := animation_direction s;
     animation_progress := animation_progress s;
     target_page_index := target_page_index s;
     page_scale_to := page_scale_to s; page_scale_value := page_scale_value s;
     canvas_width := canvas_width s; canvas_height := v;
     canvas_image := canvas_image s; after_pending := after_pending s |}.

Definition set_canvas_image (v : option (Z * Z * Image.t)) (s : Viewer) : Viewer :=
  {| heap := heap s; doc := doc s; page_count := page_count s;
     page_index := page_index s; zoom := zoom s; fit_mode := fit_mode s;
     dual_page_mode := dual_page_mode s; filepath := filepath s;
     is_animating := is_animating s;
     animation_direction := animation_direction s;
     animation_progress := animation_progress s;
     target_page_index := target_page_index s;
     page_scale_to := page_scale_to s; page_scale_value := page_scale_value s;
     canvas_width := canvas_width s; canvas_height := canvas_height s;
     canvas_image := v; after_pending := after_pending s |}.

Definition set_after_pending (v : nat) (s : Viewer) : Viewer :=
  {| heap := heap s; doc := doc s; page_count := page_count s;
     page_index := page_index s; zoom := zoom s; fit_mode := fit_mode s;
     dual_page_mode := dual_page_mode s; filepath := filepath s;
     is_animating := is_animating s;
     animation_direction := animation_direction s;
     animation_progress := animation_progress s;
     target_page_index := target_page_index s;
     page_scale_to := page_scale_to s; page_scale_value := page_scale_value s;
     canvas_width := canvas_width s; canvas_height := canvas_height s;
     canvas_image := canvas_image s; after_pending := v |}.

(** ** Exceptions and the state-and-exception monad *)

Inductive exn : Set :=
| DocumentOpenError   (* [fitz.open] refused the path *)
| ValueError          (* closed document or bad page number *)
| ZeroDivisionError
| AttributeError.     (* attribute read on [None] or before it is set *)

Inductive result (A : Type) : Type :=
| Ok (a : A) (s : Viewer)
| Raise (e : exn) (s : Viewer).
Arguments Ok {A} a s.
Arguments Raise {A} e s.

Definition M (A : Type) : Type := Viewer -> result A.

Definition ret {A} (a : A) : M A := fun s => Ok a s.

Definition bind {A B} (c : M A) (k : A -> M B) : M B :=
  fun s => match c s with
           | Ok a s' => k a s'
           | Raise e s' => Raise e s'
           end.

Definition raise {A} (e : exn) : M A := fun s => Raise e s.
Definition get : M Viewer := fun s => Ok s s.
Definition modify (f : Viewer -> Viewer) : M unit := fun s => Ok tt (f s).

(** The viewer as the event loop finds it once a handler has returned or
    raised. *)
Definition final {A} (r : result A) : Viewer :=
  match r with Ok _ s => s | Raise _ s => s end.

Definition raised {A} (r : result A) : option exn :=
  match r with Ok _ _ => None | Raise e _ => Some e end.

Declare Scope viewer_scope.
Delimit Scope viewer_scope with viewer.
Notation "x <- c ;; k" := (bind c (fun x => k))
  (at level 100, c at next level, k at level 200, right associativity)
  : viewer_scope.
Notation "c ;; k" := (bind c (fun _ => k))
  (at level 100, k at level 200, right associativity) : viewer_scope.
Local Open Scope viewer_scope.

Fixpoint mapM {A B} (f : A -> M B) (l : list A) : M (list B) :=
  match l with
  | [] => ret []
  | a :: l' => b <- f a ;; bs <- mapM f l' ;; ret (b :: bs)
  end.

(** The document object [self.doc] refers to, if any. *)
Definition the_doc (s : Viewer) : option fitz.Document :=
  match doc s with
  | Some h => heap s !! h
  | None => None
  end.

(** The truth value of [self.doc] in [self.doc and ...] and [not self.doc]:
    [None] is false, and a document, which defines [__len__], is true
    exactly when it has a page. This is the value on a document that is not
    closed: on a closed one [__len__] raises ValueError ('document closed')
    and there is no truth value, see [doc_closed]. *)
Definition doc_truthy (s : Viewer) : bool :=
  match the_doc s with
  | Some d => 0 <? fitz.len d
  | None => false
  end.

(** [self.doc] refers to a closed document, so that [bool(self.doc)]
    raises ValueError where [doc_truthy] gives a value. What is proved of
    [_load] assumes this is not the case. *)
Definition doc_closed (s : Viewer) : bool :=
  match the_doc s with
  | Some d => fitz.is_closed d
  | None => false
  end.

(** [PDFViewer.__init__]: the window opens at 1280x800. *)
Definition init (cw ch : Z) : Viewer :=
  {| heap := []; doc := None; page_count := 0; page_index := 0; zoom := 1.0%Q;
     fit_mode := true; dual_page_mode := false; filepath := None;
     is_animating := false; animation_direction := 1;
     animation_progress := 0.0%Q; target_page_index := None;
     page_scale_to := 1; page_scale_value := 1.0%Q;
     canvas_width := cw; canvas_height := ch; canvas_image := None;
     after_pending := 0 |}.

Section PDFViewer.

(** [fitz.open(path)]: the pages of the document at [path], or a refusal. *)
Variable fitz_open : string -> option (list fitz.Page).

(** [page.get_pixmap(matrix=fitz.Matrix(scale, scale))]: the pixel width
    and height of the page rasterised at [scale]. *)
Variable get_pixmap : fitz.Page -> Q -> Z * Z.

(** *** Rendering *)

(** Lines 353-361 of [_get_page_image]: the render scale of a page of
    size [r], from the canvas size, the mode flags and the stored zoom. *)
Definition resolve_scale (s : Viewer) (r : fitz.Rect) : Q :=
  let cw := Py.maxZ 1 (canvas_width s - pad * 2) in
  let ch := Py.maxZ 1 (canvas_height s - pad * 2) in
  let effective_cw :=
    if dual_page_mode s && (page_index s + 1 <? page_count s)
    then cw / 2 else cw in
  let fit_scale :=
    Py.minQ (inject_Z effective_cw / fitz.width r)%Q
            (inject_Z ch / fitz.height r)%Q in
  let scale := if negb (fit_mode s) then zoom s else fit_scale in
  Py.sorted3_1 Qle_bool 0.2%Q scale 8.0%Q.

Definition _get_page_image (page_idx : Z) : M Image.t :=
  s <- get ;;
  match the_doc s with
  | None => raise AttributeError
  | Some d =>
      match fitz.load_page d page_idx with
      | None => raise ValueError
      | Some page =>
          let rect := fitz.rect page in
          if Qeq_bool (fitz.width rect) 0%Q || Qeq_bool (fitz.height rect) 0%Q
          then raise ZeroDivisionError
          else
            let scale := resolve_scale s rect in
            let '(w, h) := get_pixmap page scale in
            ret (Image.mk w h [(page_idx, scale)])
      end
  end.

(** Lines 369-373, for the two images of a spread and any other non-empty
    list. On the empty list, which the viewer never passes, the code raises
    ValueError at the [zip] unpacking; it is given the size 12 x 0 here. *)
Definition _combine_images_horizontal (images : list Image.t) : Image.t :=
  let widths := map Image.width images in
  let heights := map Image.height images in
  let total_width := foldr Z.add 0 widths + pad in
  let max_height :=
    match heights with
    | [] => 0
    | h :: hs => foldl Py.maxZ h hs
    end in
  Image.mk total_width max_height (concat (map Image.shows images)).

(** The image is drawn at the centring offset; the shadow and the page
    background behind it are not modelled. *)
Definition _display_image (img : Image.t) : M unit :=
  modify (fun s =>
    let w := Image.width img in
    let h := Image.height img in
    let cw := canvas_width s in
    let ch := canvas_height s in
    let x := (cw - w) / 2 in
    let y := (ch - h) / 2 in
    set_canvas_image (Some (x, y, img)) s).

(** [[idx] if not dual or idx + 1 >= page_count else [idx, idx + 1]]. *)
Definition pages_to_render (s : Viewer) (idx : Z) : list Z :=
  if negb (dual_page_mode s) || (page_count s <=? idx + 1)
  then [idx] else [idx; idx + 1].

(** [images[0] if len(images) == 1 else _combine_images_horizontal(images)]. *)
Definition combined_of (images : list Image.t) : Image.t :=
  match images with
  | [img] => img
  | _ => _combine_images_horizontal images
  end.

Definition _render_pages : M unit :=
  s <- get ;;
  images <- mapM _get_page_image (pages_to_render s (page_index s)) ;;
  _display_image (combined_of images).

Definition _render : M unit :=
  s <- get ;;
  if doc_truthy s then _render_pages else ret tt.

(** *** Navigation and zoom *)

(** [page_scale.set] runs with [_block_scale_callback] raised, so the
    slider moves and [_on_scale] does nothing. *)
Definition _update_page_ui : M unit :=
  modify (fun s => set_page_scale_value (inject_Z (page_index s + 1)) s).

Definition _set_page (idx : Z) : M unit :=
  modify (set_page_index idx) ;;
  _update_page_ui ;;
  _render.

Definition _go (index : Z) : M unit :=
  s <- get ;;
  if doc_truthy s
  then _set_page (Py.sorted3_1 Z.leb 0 index (page_count s - 1))
  else ret tt.

(** The slider's command, with the value the user moved it to. *)
Definition _on_scale (v : Q) : M unit := _go (Py.int v - 1).

Definition _zoom_in : M unit :=
  modify (set_fit_mode false) ;;
  modify (fun s => set_zoom (Py.sorted3_1 Qle_bool 0.2%Q (zoom s * 1.25)%Q 6.0%Q) s) ;;
  _render.

Definition _zoom_out : M unit :=
  modify (set_fit_mode false) ;;
  modify (fun s => set_zoom (Py.sorted3_1 Qle_bool 0.2%Q (zoom s / 1.25)%Q 6.0%Q) s) ;;
  _render.

Definition _toggle_fit : M unit :=
  modify (fun s => set_fit_mode (negb (fit_mode s)) s) ;;
  _render.

Definition _toggle_dual_page : M unit :=
  modify (fun s => set_dual_page_mode (negb (dual_page_mode s)) s) ;;
  _render.

(** *** The flip animation *)

(** [self.target_page_index], an attribute that [__init__] does not set. *)
Definition read_target : M Z :=
  s <- get ;;
  match target_page_index s with
  | Some t => ret t
  | None => raise AttributeError
  end.

(** Lines 255-257: the horizontal scale of a flip frame. *)
Definition flip_scale_x (s : Viewer) : Q :=
  let progress := animation_progress s in
  let scale_x :=
    Qabs (if 0 <? animation_direction s
          then (1.0 - progress)%Q else progress) in
  Py.maxQ 0.1%Q scale_x.

(** Line 269: the width the composed image is resized to. *)
Definition flip_new_width (combined : Image.t) (scale_x : Q) : Z :=
  Py.maxZ 1 (Py.int (inject_Z (Image.width combined) * scale_x)%Q).

Definition _render_flip_frame : M unit :=
  modify (set_canvas_image None) ;;
  s <- get ;;
  let progress := animation_progress s in
  let scale_x := flip_scale_x s in
  render_idx <- (if Qlt_le_dec progress 0.5%Q
                 then ret (page_index s) else read_target) ;;
  images <- mapM _get_page_image (pages_to_render s render_idx) ;;
  let combined := combined_of images in
  let new_width := flip_new_width combined scale_x in
  let flipped := Image.resize combined new_width (Image.height combined) in
  let cw := canvas_width s in
  let ch := canvas_height s in
  let x := (cw - new_width) / 2 in
  let y := (ch - Image.height flipped) / 2 in
  modify (set_canvas_image (Some (x, y, flipped))).

(** One tick. [self.after(30, self._animate_flip)] leaves one more
    callback pending in the event loop. *)
Definition _animate_flip : M unit :=
  modify (fun s =>
    set_animation_progress (Py.minQ 1.0%Q (animation_progress s + 0.15)%Q) s) ;;
  _render_flip_frame ;;
  s <- get ;;
  if Qle_bool 1.0%Q (animation_progress s)
  then
    t <- read_target ;;
    modify (set_page_index t) ;;
    modify (set_is_animating false) ;;
    _update_page_ui ;;
    _render
  else modify (fun s => set_after_pending (S (after_pending s)) s).

Definition _start_flip_animation (target_idx direction : Z) : M unit :=
  s <- get ;;
  if target_idx =? page_index s then ret tt
  else
    modify (set_is_animating true) ;;
    modify (set_animation_direction direction) ;;
    modify (set_animation_progress 0.0%Q) ;;
    modify (set_target_page_index (Some target_idx)) ;;
    _animate_flip.

Definition _go_animated (index direction : Z) : M unit :=
  s <- get ;;
  if negb (doc_truthy s) || is_animating s then ret tt
  else
    let index :=
      if dual_page_mode s then
        let index := Py.maxZ 0 (Py.minZ (page_count s - 1) index) in
        if negb (index mod 2 =? 0) then index - 1 else index
      else Py.maxZ 0 (Py.minZ (page_count s - 1) index) in
    _start_flip_animation index direction.

(** *** Opening a document *)

Definition _load (path : string) : M unit :=
  (* self.doc and self.doc.close() *)
  s <- get ;;
  (match doc s, the_doc s with
   | Some h, Some d =>
       if doc_truthy s
       then modify (set_heap (<[h := fitz.close d]> (heap s)))
       else ret tt
   | _, _ => ret tt
   end) ;;
  (* self.doc = fitz.open(path.as_posix()) *)
  match fitz_open path with
  | None => raise DocumentOpenError
  | Some pgs =>
      let d := fitz.mkDocument pgs false in
      modify (fun s =>
        set_doc (Some (length (heap s))) (set_heap (heap s ++ [d]) s)) ;;
      modify (set_filepath (Some path)) ;;
      modify (set_page_count (fitz.len d)) ;;
      modify (set_page_index 0) ;;
      modify (set_zoom 1.0%Q) ;;
      modify (set_fit_mode true) ;;
      modify (fun s => set_page_scale_to (Py.maxZ 1 (page_count s)) s) ;;
      modify (set_page_scale_value 1.0%Q) ;;
      _render
  end.

(** [_open_dialog] with the path the file dialog returned; the empty
    string stands for a cancelled dialog. *)
Definition _open_dialog (path : string) : M unit :=
  match path with
  | EmptyString => ret tt
  | _ => _load path
  end.

(** *** The bindings of the event loop *)

Inductive event : Type :=
| EvOpen (path : string)      (* Ctrl+O, o, the Open button *)
| EvLeft                      (* <Left>, the prev button *)
| EvRight                     (* <Right>, the next button *)
| EvZoomIn
| EvZoomOut
| EvFit
| EvDual
| EvScale (v : Q)             (* the user moves the page slider to v *)
| EvConfigure (w h : Z)       (* the canvas gets a new size *)
| EvAfter.                    (* a pending [after] callback fires *)

Definition handle (ev : event) : M unit :=
  match ev with
  | EvOpen path => _open_dialog path
  | EvLeft =>
      s <- get ;;
      _go_animated (page_index s - (if dual_page_mode s then 2 else 1)) (-1)
  | EvRight =>
      s <- get ;;
      _go_animated (page_index s + (if dual_page_mode s then 2 else 1)) 1
  | EvZoomIn => _zoom_in
  | EvZoomOut => _zoom_out
  | EvFit => _toggle_fit
  | EvDual => _toggle_dual_page
  | EvScale v =>
      modify (set_page_scale_value v) ;;
      _on_scale v
  | EvConfigure w h =>
      modify (fun s => set_canvas_width w (set_canvas_height h s)) ;;
      s <- get ;;
      if fit_mode s && doc_truthy s then _render else ret tt
  | EvAfter =>
      s <- get ;;
      match after_pending s with
      | O => ret tt
      | S n => modify (set_after_pending n) ;; _animate_flip
      end
  end.

(** An event the window can deliver in state [s]: the slider only offers
    values between 1 and its upper end, and sizes are not negative. *)
Definition deliverable (s : Viewer) (ev : event) : Prop :=
  match ev with
  | EvScale v => (1 <= v <= inject_Z (page_scale_to s))%Q
  | EvConfigure w h => 0 <= w /\ 0 <= h
  | EvAfter => (0 < after_pending s)%nat
  | _ => True
  end.

Definition step (s : Viewer) (ev : event) : Viewer := final (handle ev s).

(** The states of a session that starts from [init]. *)
Inductive reachable : Viewer -> Prop :=
| reach_init cw ch : 0 <= cw -> 0 <= ch -> reachable (init cw ch)
| reach_step s ev :
    reachable s -> deliverable s ev -> reachable (step s ev).

End PDFViewer.

(** ** States on which rendering succeeds *)

(** A page the scale computation can divide by. *)
Definition page_ok (p : fitz.Page) : bool :=
  negb (Qeq_bool (fitz.width (fitz.rect p)) 0)
  && negb (Qeq_bool (fitz.height (fitz.rect p)) 0).

(** [self.doc] is an open document, [page_count] is its length and no page
    has a zero side. *)
Definition renderable (s : Viewer) : bool :=
  match the_doc s with
  | Some d =>
      negb (fitz.is_closed d) && (page_count s =? fitz.len d)
      && forallb page_ok (fitz.pages d)
  | None => false
  end.

Definition valid_index (s : Viewer) (i : Z) : bool :=
  (0 <=? i) && (i <? page_count s).

(** ** Invariants of computations *)

(** [P] survives the computation [c], whether it returns or raises. *)
Definition invariant {A} (P : Viewer -> Prop) (c : M A) : Prop :=
  forall s, P s -> P (final (c s)).

(** The range the stored zoom is kept in. *)
Definition zoom_ok (s : Viewer) : Prop := (0.2 <= zoom s <= 6.0)%Q.

(** The viewer with its canvas wiped: what two states that differ only in
    the drawn image have in common. *)
Definition wipe (s : Viewer) : Viewer := set_canvas_image None s.

(** A property that does not look at the canvas image. *)
Definition canvas_blind (P : Viewer -> Prop) : Prop :=
  forall c s, P s -> P (set_canvas_image c s).

(** ** A viewer on a document without pages *)

Definition is_open (ev : event) : bool :=
  match ev with
  | EvOpen _ => true
  | _ => false
  end.

(** [self.doc] is falsy and no flip is in flight. *)
Definition idle_empty (s : Viewer) : Prop :=
  doc_truthy s = false /\ is_animating s = false /\ after_pending s = 0%nat.

(** ** A concrete session, for running the model *)

Module Example.

(** A US-letter page, 612 x 792 points. *)
Definition letter : fitz.Page := fitz.mkPage (fitz.mkRect 612 792).

(** A file system with a ten-page document and a document without pages. *)
Definition opener (path : string) : option (list fitz.Page) :=
  if String.eqb path "ten.pdf" then Some (repeat letter 10)
  else if String.eqb path "empty.pdf" then Some []
  else None.

(** A rasteriser that rounds the scaled page size up. *)
Definition pixmap (p : fitz.Page) (sc : Q) : Z * Z :=
  (Z.max 1 (Qceiling (fitz.width (fitz.rect p) * sc)),
   Z.max 1 (Qceiling (fitz.height (fitz.rect p) * sc))).

(** A rasteriser that makes every page a 3 x 4 thumbnail. *)
Definition thumb (p : fitz.Page) (sc : Q) : Z * Z := (3, 4).

Definition run (px : fitz.Page -> Q -> Z * Z) (evs : list event)
    (s : Viewer) : Viewer :=
  fold_left (step opener px) evs s.

(** The window at its initial geometry. *)
Definition start : Viewer := init 1256 700.

(** The ten-page document is open on its first page. *)
Definition opened : Viewer := run pixmap [EvOpen "ten.pdf"] start.

(** The same, in dual-page mode. *)
Definition opened_dual : Viewer := run pixmap [EvOpen "ten.pdf"; EvDual] start.

(** One tick into the flip from page 0 to page 1. *)
Definition flipping : Viewer := run pixmap [EvOpen "ten.pdf"; EvRight] start.
Definition flipping_thumb : Viewer :=
  run thumb [EvOpen "ten.pdf"; EvRight] start.

(** Nine zoom-in steps from the initial zoom 1.0: 1.25^9 > 6. *)
Definition zoomed_max : Viewer := run pixmap (repeat EvZoomIn 9) start.

(** The document without pages is open. *)
Definition opened_empty : Viewer := run pixmap [EvOpen "empty.pdf"] start.

End Example.

(** ** The status label *)

(** [str(n)] on an int. *)
Definition py_str (n : Z) : string := NilZero.string_of_int (Z.to_int n).

(** [_update_status], lines 411 and 413: the text given to [page_label]
    (the window title, which also shows the file name, is not modelled). *)
Definition page_display (s : Viewer) : string :=
  if dual_page_mode s && (page_index s + 1 <? page_count s)
  then py_str (page_index s + 1) ++ "-"
       ++ py_str (Py.minZ (page_index s + 2) (page_count s))
  else py_str (page_index s + 1).

Definition _update_status (s : Viewer) : string :=
  page_display s ++ "/" ++ py_str (page_count s).

(** ** The paste loop of [_combine_images_horizontal] *)

(** Lines 375-378: the [x_offset] each image is pasted at, the loop starting
    with [x_offset] as given. *)
Fixpoint paste_offsets (x_offset : Z) (images : list Image.t) : list Z :=
  match images with
  | [] => []
  | img :: rest =>
      x_offset :: paste_offsets (x_offset + Image.width img + pad) rest
  end.

(** ** The mouse wheel *)

(** [_on_mousewheel], lines 421-424, as the list of amounts passed to
    [canvas.yview_scroll], in call order. [event.num] is a button number or
    the string '??', here [None]. [yview_scroll] returns [None], so the left
    operand of [or] is falsy whether or not it scrolled, and the right
    operand is always evaluated. *)
Definition _on_mousewheel (num : option Z) (delta : Z) : list Z :=
  let is_num (n : Z) :=
    match num with
    | Some m => m =? n
    | None => false
    end in
  let down := is_num 5 || (delta <? 0) in
  let up := is_num 4 || (0 <? delta) in
  (if down then [1] else []) ++ (if up then [-1] else []).

(** ** Weakest preconditions *)

(** [Q] holds of the value and state [c] returns from [s], or [E] of the
    state it raises in. *)
Definition wp {A} (c : M A) (Q : A -> Viewer -> Prop) (E : Viewer -> Prop)
    (s : Viewer) : Prop :=
  match c s with
  | Ok a s' => Q a s'
  | Raise _ s' => E s'
  end.

(** ** Invariants of a session *)

(** The flip progress is a fraction. *)
Definition progress_ok (s : Viewer) : Prop :=
  (0 <= animation_progress s <= 1)%Q.

(** At most one [after] callback is pending, and only during a flip. *)
Definition timer_ok (s : Viewer) : Prop :=
  (after_pending s <= 1)%nat
  /\ (after_pending s = 1%nat -> is_animating s = true).

(** [page_count] is the length of the document [self.doc] refers to, the
    slider ends at [max(1, page_count)], and neither the page index nor the
    flip target is negative. *)
Definition doc_ok (s : Viewer) : Prop :=
  match doc s with
  | None => page_count s = 0
  | Some h => exists d, heap s !! h = Some d /\ page_count s = fitz.len d
  end
  /\ page_scale_to s = Z.max 1 (page_count s)
  /\ 0 <= page_index s
  /\ (forall t, target_page_index s = Some t -> 0 <= t).

(** The page index, and the target of a running flip, are pages of the
    document (or 0 when it has none). *)
Definition index_ok (s : Viewer) : Prop :=
  page_index s < Z.max 1 (page_count s)
  /\ (is_animating s = true ->
      forall t, target_page_index s = Some t -> t < Z.max 1 (page_count s)).

(** Sessions in which no document is opened while a flip is running. *)
Inductive calm_reachable
    (fitz_open : string -> option (list fitz.Page))
    (get_pixmap : fitz.Page -> Q -> Z * Z) : Viewer -> Prop :=
| calm_init cw ch :
    0 <= cw -> 0 <= ch -> calm_reachable fitz_open get_pixmap (init cw ch)
| calm_step s ev :
    calm_reachable fitz_open get_pixmap s ->
    deliverable s ev ->
    (is_open ev = true -> is_animating s = false) ->
    calm_reachable fitz_open get_pixmap (step fitz_open get_pixmap s ev).

(** What a flip is drawn with: the mode, the direction and the canvas
    size. *)
Definition flip_setting (b : bool) (d w h : Z) (st : Viewer) : Prop :=
  dual_page_mode st = b /\ animation_direction st = d
  /\ canvas_width st = w /\ canvas_height st = h.

(** ** Animated navigation *)

(** Lines 217-222 of [_go_animated]: the index a request is turned into. *)
Definition nav_target (s : Viewer) (index : Z) : Z :=
  if dual_page_mode s then
    let index := Py.maxZ 0 (Py.minZ (page_count s - 1) index) in
    if negb (index mod 2 =? 0) then index - 1 else index
  else Py.maxZ 0 (Py.minZ (page_count s - 1) index).

(** The prev and next bindings. *)
Definition nav_event (forward : bool) : event :=
  if forward then EvRight else EvLeft.

(** The index the prev and next bindings ask for. *)
Definition nav_request (s : Viewer) (forward : bool) : Z :=
  let d := if dual_page_mode s then 2 else 1 in
  if forward then page_index s + d else page_index s - d.

(** * Properties *)

(** ** The Python built-ins *)

(** [sorted((lo, x, hi))[1]] clamps [x] to [[lo, hi]]. *)
Lemma sorted3_1_Q (lo x hi : Q) :
  (lo <= hi)%Q ->
  Py.sorted3_1 Qle_bool lo x hi =
    if Qle_bool x hi then (if Qle_bool lo x then x else lo) else hi.
Proof.
  intros Hlh. unfold Py.sorted3_1, Py.sorted. simpl.
  destruct (Qle_bool x hi) eqn:Hxh; simpl.
  - destruct (Qle_bool lo x) eqn:Hlx; simpl; [reflexivity|].
    assert (Qle_bool lo hi = true) as -> by (apply Qle_bool_iff; exact Hlh).
    reflexivity.
  - assert (Qle_bool lo hi = true) as -> by (apply Qle_bool_iff; exact Hlh).
    reflexivity.
Qed.

Lemma sorted3_1_Q_bounds (lo x hi : Q) :
  (lo <= hi)%Q ->
  (lo <= Py.sorted3_1 Qle_bool lo x hi <= hi)%Q.
Proof.
  intros Hlh. rewrite sorted3_1_Q by assumption.
  destruct (Qle_bool x hi) eqn:Hxh.
  - apply Qle_bool_iff in Hxh.
    destruct (Qle_bool lo x) eqn:Hlx.
    + apply Qle_bool_iff in Hlx. split; assumption.
    + split; [apply Qle_refl | assumption].
  - split; [assumption | apply Qle_refl].
Qed.

Lemma sorted3_1_Q_inside (lo x hi : Q) :
  (lo <= x)%Q -> (x <= hi)%Q -> Py.sorted3_1 Qle_bool lo x hi = x.
Proof.
  intros Hlx Hxh. rewrite sorted3_1_Q by (eapply Qle_trans; eassumption).
  apply Qle_bool_iff in Hlx, Hxh. rewrite Hlx, Hxh. reflexivity.
Qed.

Lemma sorted3_1_Q_above (lo x hi : Q) :
  (lo <= hi)%Q -> (hi < x)%Q -> Py.sorted3_1 Qle_bool lo x hi = hi.
Proof.
  intros Hlh Hhx. rewrite sorted3_1_Q by assumption.
  destruct (Qle_bool x hi) eqn:E; [|reflexivity].
  apply Qle_bool_iff in E. exfalso. apply (Qlt_not_le _ _ Hhx E).
Qed.

Lemma sorted3_1_Q_below (lo x hi : Q) :
  (lo <= hi)%Q -> (x < lo)%Q -> Py.sorted3_1 Qle_bool lo x hi = lo.
Proof.
  intros Hlh Hxl. rewrite sorted3_1_Q by assumption.
  assert (Qle_bool x hi = true) as ->.
  { apply Qle_bool_iff. apply Qlt_le_weak. eapply Qlt_le_trans; eassumption. }
  destruct (Qle_bool lo x) eqn:E; [|reflexivity].
  apply Qle_bool_iff in E. exfalso. apply (Qlt_not_le _ _ Hxl E).
Qed.

(** [sorted((0, i, n - 1))[1]] is within range on a document with a page. *)
Lemma sorted3_1_Z (lo x hi : Z) :
  lo <= hi ->
  Py.sorted3_1 Z.leb lo x hi = Z.max lo (Z.min x hi).
Proof.
  intros Hlh. unfold Py.sorted3_1, Py.sorted. simpl.
  destruct (Z.leb_spec x hi); simpl.
  - destruct (Z.leb_spec lo x); simpl; [lia|].
    destruct (Z.leb_spec lo hi); simpl; lia.
  - destruct (Z.leb_spec lo hi); simpl; lia.
Qed.

Lemma maxZ_max (a b : Z) : Py.maxZ a b = Z.max a b.
Proof. unfold Py.maxZ. destruct (Z.ltb_spec a b); lia. Qed.

Lemma minZ_min (a b : Z) : Py.minZ a b = Z.min a b.
Proof. unfold Py.minZ. destruct (Z.ltb_spec b a); lia. Qed.

(** On a float that is not negative, [int] is the floor. *)
Lemma int_floor (x : Q) : (0 <= x)%Q -> Py.int x = Qfloor x.
Proof.
  destruct x as [n d]. unfold Qle, Py.int, Qfloor. simpl. intros H.
  apply Z.quot_div_nonneg; lia.
Qed.

(** ** Rendering succeeds on renderable states *)

Section Rendering.

Variable get_pixmap : fitz.Page -> Q -> Z * Z.

Lemma renderable_inv (s : Viewer) :
  renderable s = true ->
  exists d, the_doc s = Some d /\ fitz.is_closed d = false
            /\ page_count s = fitz.len d
            /\ forall p, In p (fitz.pages d) -> page_ok p = true.
Proof.
  unfold renderable. destruct (the_doc s) as [d|]; [|discriminate].
  intros H. apply andb_prop in H as [H Hp]. apply andb_prop in H as [Hc Hn].
  exists d. repeat split.
  - destruct (fitz.is_closed d); [discriminate | reflexivity].
  - apply Z.eqb_eq. exact Hn.
  - apply forallb_forall. exact Hp.
Qed.

Lemma renderable_truthy (s : Viewer) (i : Z) :
  renderable s = true -> valid_index s i = true -> doc_truthy s = true.
Proof.
  intros Hr Hi. destruct (renderable_inv s Hr) as (d & Hd & _ & Hn & _).
  unfold doc_truthy. rewrite Hd. unfold valid_index in Hi.
  apply andb_prop in Hi as [H0 H1].
  apply Z.leb_le in H0. apply Z.ltb_lt in H1. apply Z.ltb_lt. lia.
Qed.

(** A valid page of a renderable state rasterises, whatever is on the
    canvas, to an image of that page whose size the rasteriser chose. *)
Lemma get_page_image_ok (s : Viewer) (idx : Z) :
  renderable s = true -> valid_index s idx = true ->
  exists img,
    _get_page_image get_pixmap idx s = Ok img s
    /\ (forall c, _get_page_image get_pixmap idx (set_canvas_image c s)
                  = Ok img (set_canvas_image c s))
    /\ map fst (Image.shows img) = [idx]
    /\ exists page sc, Image.width img = fst (get_pixmap page sc).
Proof.
  intros Hr Hi. destruct (renderable_inv s Hr) as (d & Hd & Hc & Hn & Hp).
  unfold valid_index in Hi. apply andb_prop in Hi as [H0 H1].
  apply Z.leb_le in H0. apply Z.ltb_lt in H1.
  assert (Hlt : (Z.to_nat idx < length (fitz.pages d))%nat).
  { unfold fitz.len in Hn. lia. }
  destruct (lookup_lt_is_Some_2 _ _ Hlt) as [page Hpage].
  assert (Hok : page_ok page = true).
  { apply Hp. apply list_elem_of_In. eapply list_elem_of_lookup_2. exact Hpage. }
  unfold page_ok in Hok. apply andb_prop in Hok as [Hw Hh].
  apply negb_true_iff in Hw, Hh.
  assert (Hload : fitz.load_page d idx = Some page).
  { unfold fitz.load_page. rewrite Hc.
    destruct (Z.ltb_spec idx 0); [lia | exact Hpage]. }
  destruct (get_pixmap page (resolve_scale s (fitz.rect page))) as [w h] eqn:Hpix.
  exists (Image.mk w h [(idx, resolve_scale s (fitz.rect page))]).
  repeat split.
  - unfold _get_page_image, bind, get. rewrite Hd, Hload, Hw, Hh. simpl.
    rewrite Hpix. reflexivity.
  - intros c. unfold _get_page_image, bind, get.
    change (the_doc (set_canvas_image c s)) with (the_doc s).
    rewrite Hd, Hload, Hw, Hh. simpl.
    change (resolve_scale (set_canvas_image c s)) with (resolve_scale s).
    rewrite Hpix. reflexivity.
  - exists page, (resolve_scale s (fitz.rect page)). rewrite Hpix. reflexivity.
Qed.

Lemma mapM_get_page_image_ok (s : Viewer) (idxs : list Z) :
  renderable s = true ->
  (forall i, In i idxs -> valid_index s i = true) ->
  exists imgs,
    mapM (_get_page_image get_pixmap) idxs s = Ok imgs s
    /\ (forall c, mapM (_get_page_image get_pixmap) idxs (set_canvas_image c s)
                  = Ok imgs (set_canvas_image c s))
    /\ concat (map (fun img => map fst (Image.shows img)) imgs) = idxs
    /\ Forall (fun img => exists page sc,
                  Image.width img = fst (get_pixmap page sc)) imgs.
Proof.
  intros Hr. induction idxs as [|i idxs IH]; intros Hv.
  - exists []. repeat split. constructor.
  - destruct (get_page_image_ok s i Hr (Hv i (or_introl eq_refl)))
      as (img & Himg & Himg' & Hshows & Hwidth).
    destruct IH as (imgs & Himgs & Himgs' & Hcat & Hall).
    { intros j Hj. apply Hv. right. exact Hj. }
    exists (img :: imgs). repeat split.
    + simpl. unfold bind. rewrite Himg, Himgs. reflexivity.
    + intros c. simpl. unfold bind. rewrite Himg', Himgs'. reflexivity.
    + simpl. rewrite Hshows, Hcat. reflexivity.
    + constructor; assumption.
Qed.

Lemma pages_to_render_valid (s : Viewer) (idx : Z) :
  valid_index s idx = true ->
  forall i, In i (pages_to_render s idx) -> valid_index s i = true.
Proof.
  unfold pages_to_render, valid_index. intros Hi i.
  apply andb_prop in Hi as [H0 H1].
  apply Z.leb_le in H0. apply Z.ltb_lt in H1.
  destruct (dual_page_mode s); simpl.
  - destruct (Z.leb_spec (page_count s) (idx + 1)); simpl.
    + intros [<-|[]]. apply andb_true_intro. split; [apply Z.leb_le | apply Z.ltb_lt]; lia.
    + intros [<-|[<-|[]]]; apply andb_true_intro;
        (split; [apply Z.leb_le | apply Z.ltb_lt]); lia.
  - intros [<-|[]]. apply andb_true_intro. split; [apply Z.leb_le | apply Z.ltb_lt]; lia.
Qed.

(** The pages a composed image depicts are the pages that were rasterised. *)
Lemma combined_of_shows (imgs : list Image.t) :
  map fst (Image.shows (combined_of imgs))
  = concat (map (fun img => map fst (Image.shows img)) imgs).
Proof.
  unfold combined_of. destruct imgs as [|a [|b l]].
  - reflexivity.
  - simpl. rewrite app_nil_r. reflexivity.
  - unfold _combine_images_horizontal. cbn [Image.shows].
    generalize (a :: b :: l). intros l'. induction l' as [|x l' IH]; simpl.
    + reflexivity.
    + rewrite map_app, IH. reflexivity.
Qed.

(** [_render_pages] draws the current page, with its right neighbour in
    dual mode, and changes nothing but the canvas. *)
Lemma render_pages_ok (s : Viewer) :
  renderable s = true -> valid_index s (page_index s) = true ->
  exists x y img,
    _render_pages get_pixmap s = Ok tt (set_canvas_image (Some (x, y, img)) s)
    /\ map fst (Image.shows img) = pages_to_render s (page_index s).
Proof.
  intros Hr Hi.
  destruct (mapM_get_page_image_ok s (pages_to_render s (page_index s)) Hr
              (pages_to_render_valid s _ Hi)) as (imgs & Himgs & _ & Hcat & _).
  unfold _render_pages, bind, get. rewrite Himgs.
  unfold _display_image, modify.
  do 3 eexists. split; [reflexivity|].
  rewrite combined_of_shows. exact Hcat.
Qed.

Lemma render_ok (s : Viewer) :
  renderable s = true -> valid_index s (page_index s) = true ->
  exists x y img,
    _render get_pixmap s = Ok tt (set_canvas_image (Some (x, y, img)) s)
    /\ map fst (Image.shows img) = pages_to_render s (page_index s).
Proof.
  intros Hr Hi. unfold _render, bind, get.
  rewrite (renderable_truthy s _ Hr Hi). apply render_pages_ok; assumption.
Qed.


(** ** The flip frame *)

Lemma render_flip_frame_ok (s : Viewer) (t : Z) :
  renderable s = true ->
  valid_index s (page_index s) = true ->
  target_page_index s = Some t -> valid_index s t = true ->
  let render_idx :=
    if Qlt_le_dec (animation_progress s) 0.5 then page_index s else t in
  exists imgs,
    mapM (_get_page_image get_pixmap) (pages_to_render s render_idx) s
    = Ok imgs s
    /\ Forall (fun img => exists page sc,
                 Image.width img = fst (get_pixmap page sc)) imgs
    /\ map fst (Image.shows (combined_of imgs)) = pages_to_render s render_idx
    /\ let combined := combined_of imgs in
       let new_width := flip_new_width combined (flip_scale_x s) in
       _render_flip_frame get_pixmap s
       = Ok tt (set_canvas_image
                  (Some ((canvas_width s - new_width) / 2,
                         (canvas_height s - Image.height combined) / 2,
                         Image.resize combined new_width (Image.height combined)))
                  s).
Proof.
  intros Hr Hi Ht Hv render_idx.
  assert (Hidx : valid_index s render_idx = true).
  { unfold render_idx. destruct (Qlt_le_dec _ _); assumption. }
  destruct (mapM_get_page_image_ok s (pages_to_render s render_idx) Hr
              (pages_to_render_valid s _ Hidx))
    as (imgs & Himgs & Himgs' & Hcat & Hall).
  exists imgs. split; [exact Himgs|]. split; [exact Hall|]. split.
  { rewrite combined_of_shows. exact Hcat. }
  unfold _render_flip_frame, bind, modify, get, read_target.
  change (animation_progress (set_canvas_image None s))
    with (animation_progress s).
  subst render_idx.
  destruct (Qlt_le_dec (animation_progress s) 0.5).
  - unfold ret.
    change (pages_to_render (set_canvas_image None s)
              (page_index (set_canvas_image None s)))
      with (pages_to_render s (page_index s)).
    rewrite Himgs'. reflexivity.
  - unfold bind, get, ret.
    change (target_page_index (set_canvas_image None s))
      with (target_page_index s).
    rewrite Ht.
    change (pages_to_render (set_canvas_image None s) t)
      with (pages_to_render s t).
    rewrite Himgs'. reflexivity.
Qed.


Lemma maxQ_Qmax (a b : Q) : Py.maxQ a b == Qmax a b.
Proof.
  unfold Py.maxQ. destruct (Qlt_le_dec a b) as [H|H].
  - symmetry. apply Q.max_r. apply Qlt_le_weak. exact H.
  - symmetry. apply Q.max_l. exact H.
Qed.

Lemma minQ_Qmin (a b : Q) : Py.minQ a b == Qmin a b.
Proof.
  unfold Py.minQ. destruct (Qlt_le_dec b a) as [H|H].
  - symmetry. apply Q.min_r. apply Qlt_le_weak. exact H.
  - symmetry. apply Q.min_l. exact H.
Qed.

Lemma flip_scale_x_spec (s : Viewer) :
  (0 <= animation_progress s <= 1)%Q ->
  flip_scale_x s ==
    if 0 <? animation_direction s
    then Qmax 0.1 (1 - animation_progress s)
    else Qmax 0.1 (animation_progress s).
Proof.
  intros [H0 H1]. unfold flip_scale_x. rewrite maxQ_Qmax.
  destruct (0 <? animation_direction s).
  - apply Q.max_compat; [reflexivity|]. rewrite Qabs_pos by lra. lra.
  - apply Q.max_compat; [reflexivity|]. apply Qabs_pos. exact H0.
Qed.

Lemma flip_scale_x_floor (s : Viewer) : (0.1 <= flip_scale_x s)%Q.
Proof.
  unfold flip_scale_x, Py.maxQ.
  destruct (Qlt_le_dec _ _) as [H|H]; [apply Qlt_le_weak; exact H | apply Qle_refl].
Qed.

Lemma flip_new_width_pos (combined : Image.t) (scale_x : Q) :
  1 <= flip_new_width combined scale_x.
Proof. unfold flip_new_width. rewrite maxZ_max. lia. Qed.

Lemma combined_of_width_nonneg (imgs : list Image.t) :
  Forall (fun img => 0 <= Image.width img) imgs ->
  0 <= Image.width (combined_of imgs).
Proof.
  intros Hall.
  assert (Hsum : 0 <= foldr Z.add 0 (map Image.width imgs)).
  { induction Hall; simpl; lia. }
  unfold combined_of. destruct imgs as [|a [|b l]].
  - simpl. unfold pad. lia.
  - inversion Hall; assumption.
  - unfold _combine_images_horizontal. cbn [Image.width]. unfold pad. lia.
Qed.

(** C6 (amended). On a tick with progress p in [0,1] the horizontal scale is
    max(0.1, 1 - p) going forward and max(0.1, p) going backward, the frame
    rasterises the stored (source) page while p < 0.5 and the target page
    from p >= 0.5 on, with the right neighbour in dual mode, and the composed
    image is resized to width max(1, int(originalWidth * scaleX)), where int
    truncates: the width is not rounded to the nearest integer. *)
Theorem flip_frame_scale_page_width (s : Viewer) (t : Z) :
  renderable s = true ->
  valid_index s (page_index s) = true ->
  target_page_index s = Some t -> valid_index s t = true ->
  (0 <= animation_progress s <= 1)%Q ->
  let p := animation_progress s in
  let scale_x :=
    if 0 <? animation_direction s then Qmax 0.1 (1 - p) else Qmax 0.1 p in
  let render_idx := if Qlt_le_dec p 0.5 then page_index s else t in
  flip_scale_x s == scale_x
  /\ exists imgs x y img,
       mapM (_get_page_image get_pixmap) (pages_to_render s render_idx) s
       = Ok imgs s
       /\ _render_flip_frame get_pixmap s
          = Ok tt (set_canvas_image (Some (x, y, img)) s)
       /\ map fst (Image.shows img) = pages_to_render s render_idx
       /\ Image.width img
          = Z.max 1 (Py.int (inject_Z (Image.width (combined_of imgs))
                             * flip_scale_x s)).
Proof.
  intros Hr Hi Ht Hv Hp p scale_x render_idx.
  split; [apply flip_scale_x_spec; exact Hp|].
  destruct (render_flip_frame_ok s t Hr Hi Ht Hv)
    as (imgs & Himgs & _ & Hshows & Hframe).
  exists imgs. do 3 eexists.
  split; [exact Himgs|]. split; [exact Hframe|]. split; [exact Hshows|].
  cbn [Image.resize Image.width]. unfold flip_new_width.
  apply maxZ_max.
Qed.

(** C10. Every flip frame put on the canvas is at least one pixel wide: the
    width asked of the resize is max(1, floor(width * scaleX)), with scaleX
    itself at least 0.1, so a product that truncates to 0 still gives 1. *)
Theorem flip_frame_width_at_least_1 (s : Viewer) (t : Z) :
  (forall page sc, 0 <= fst (get_pixmap page sc)) ->
  renderable s = true ->
  valid_index s (page_index s) = true ->
  target_page_index s = Some t -> valid_index s t = true ->
  exists imgs x y img,
    mapM (_get_page_image get_pixmap)
      (pages_to_render s
         (if Qlt_le_dec (animation_progress s) 0.5 then page_index s else t)) s
    = Ok imgs s
    /\ _render_flip_frame get_pixmap s
       = Ok tt (set_canvas_image (Some (x, y, img)) s)
    /\ (0.1 <= flip_scale_x s)%Q
    /\ Image.width img
       = Z.max 1 (Qfloor (inject_Z (Image.width (combined_of imgs))
                          * flip_scale_x s))
    /\ 1 <= Image.width img.
Proof.
  intros Hpix Hr Hi Ht Hv.
  destruct (render_flip_frame_ok s t Hr Hi Ht Hv)
    as (imgs & Himgs & Hall & _ & Hframe).
  exists imgs. do 3 eexists.
  split; [exact Himgs|]. split; [exact Hframe|].
  split; [apply flip_scale_x_floor|].
  cbn [Image.resize Image.width]. split; [|apply flip_new_width_pos].
  unfold flip_new_width. rewrite maxZ_max. f_equal. apply int_floor.
  assert (H0 : 0 <= Image.width (combined_of imgs)).
  { apply combined_of_width_nonneg. eapply Forall_impl; [exact Hall|].
    intros img (page & sc & ->). apply Hpix. }
  pose proof (flip_scale_x_floor s) as Hsx.
  apply Qmult_le_0_compat; [|lra].
  change 0%Q with (inject_Z 0). rewrite <- Zle_Qle. exact H0.
Qed.

End Rendering.
Lemma flip_frame_scale_page_width_witness :
  let s := Example.flipping in
  let p := animation_progress s in
  let render_idx := if Qlt_le_dec p 0.5 then page_index s else 1 in
  flip_scale_x s
  == (if 0 <? animation_direction s then Qmax 0.1 (1 - p) else Qmax 0.1 p)
  /\ exists imgs x y img,
       mapM (_get_page_image Example.pixmap) (pages_to_render s render_idx) s
       = Ok imgs s
       /\ _render_flip_frame Example.pixmap s
          = Ok tt (set_canvas_image (Some (x, y, img)) s)
       /\ map fst (Image.shows img) = pages_to_render s render_idx
       /\ Image.width img
          = Z.max 1 (Py.int (inject_Z (Image.width (combined_of imgs))
                             * flip_scale_x s)).
Proof.
  apply (flip_frame_scale_page_width Example.pixmap Example.flipping 1).
  - vm_compute. reflexivity.
  - vm_compute. reflexivity.
  - vm_compute. reflexivity.
  - vm_compute. reflexivity.
  - split; apply Qle_bool_iff; vm_compute; reflexivity.
Defined.

(** C6, as stated, fails. One tick into a forward flip (p = 0.15, so scaleX
    = 0.85) with a composed image 3 pixels wide, the frame is resized to
    width int(2.55) = 2, while round(3 * 0.85) = 3. *)
Lemma flip_frame_width_not_rounded :
  let s := Example.flipping_thumb in
  exists original x y img,
    mapM (_get_page_image Example.thumb) (pages_to_render s 0) s
    = Ok [original] s
    /\ Image.width original = 3
    /\ flip_scale_x s == 0.85
    /\ _render_flip_frame Example.thumb s
       = Ok tt (set_canvas_image (Some (x, y, img)) s)
    /\ Image.width img = 2
    /\ Py.round (inject_Z (Image.width original) * flip_scale_x s) = 3.
Proof.
  do 4 eexists. split; [vm_compute; reflexivity|].
  split; [reflexivity|]. split; [vm_compute; reflexivity|].
  split; [vm_compute; reflexivity|]. split; vm_compute; reflexivity.
Qed.

Lemma flip_frame_width_at_least_1_witness :
  let s := Example.flipping in
  exists imgs x y img,
    mapM (_get_page_image Example.pixmap)
      (pages_to_render s
         (if Qlt_le_dec (animation_progress s) 0.5 then page_index s else 1)) s
    = Ok imgs s
    /\ _render_flip_frame Example.pixmap s
       = Ok tt (set_canvas_image (Some (x, y, img)) s)
    /\ (0.1 <= flip_scale_x s)%Q
    /\ Image.width img
       = Z.max 1 (Qfloor (inject_Z (Image.width (combined_of imgs))
                          * flip_scale_x s))
    /\ 1 <= Image.width img.
Proof.
  apply (flip_frame_width_at_least_1 Example.pixmap Example.flipping 1).
  - intros page sc. simpl. lia.
  - vm_compute. reflexivity.
  - vm_compute. reflexivity.
  - vm_compute. reflexivity.
  - vm_compute. reflexivity.
Defined.

(** ** Invariants, compositionally *)

Lemma inv_ret {A} (P : Viewer -> Prop) (a : A) : invariant P (ret a).
Proof. intros s H. exact H. Qed.

Lemma inv_get (P : Viewer -> Prop) : invariant P get.
Proof. intros s H. exact H. Qed.

Lemma inv_raise {A} (P : Viewer -> Prop) (e : exn) : invariant P (@raise A e).
Proof. intros s H. exact H. Qed.

Lemma inv_modify (P : Viewer -> Prop) (f : Viewer -> Viewer) :
  (forall s, P s -> P (f s)) -> invariant P (modify f).
Proof. intros Hf s H. apply Hf. exact H. Qed.

Lemma inv_bind {A B} (P : Viewer -> Prop) (c : M A) (k : A -> M B) :
  invariant P c -> (forall a, invariant P (k a)) -> invariant P (bind c k).
Proof.
  intros Hc Hk s H. specialize (Hc s H). unfold bind.
  destruct (c s) as [a s'|e s']; simpl in *.
  - apply Hk. exact Hc.
  - exact Hc.
Qed.

(** [get] hands the continuation a state that satisfies the invariant. *)
Lemma inv_bind_get {B} (P : Viewer -> Prop) (k : Viewer -> M B) :
  (forall s, P s -> P (final (k s s))) -> invariant P (bind get k).
Proof. intros Hk s H. unfold bind, get. apply Hk. exact H. Qed.

Lemma inv_mapM {A B} (P : Viewer -> Prop) (f : A -> M B) (l : list A) :
  (forall a, invariant P (f a)) -> invariant P (mapM f l).
Proof.
  intros Hf. induction l as [|a l IH]; simpl.
  - apply inv_ret.
  - apply inv_bind; [apply Hf|]. intros b.
    apply inv_bind; [exact IH|]. intros bs. apply inv_ret.
Qed.

Ltac inv_step :=
  lazymatch goal with
  | |- invariant _ (ret _) => apply inv_ret
  | |- invariant _ get => apply inv_get
  | |- invariant _ (raise _) => apply inv_raise
  | |- invariant _ (modify _) => apply inv_modify
  | |- invariant _ (mapM _ _) => apply inv_mapM; intros ?
  | |- invariant _ (bind _ _) => apply inv_bind; [|intros ?]
  | |- invariant _ (let _ := _ in _) => cbv zeta
  | |- invariant _ (match ?x with _ => _ end) => destruct x
  end.

Ltac inv_auto := repeat inv_step.

Section Invariants.

Variable fitz_open : string -> option (list fitz.Page).
Variable get_pixmap : fitz.Page -> Q -> Z * Z.

Lemma inv_get_page_image (P : Viewer -> Prop) (idx : Z) :
  invariant P (_get_page_image get_pixmap idx).
Proof. unfold _get_page_image. inv_auto. Qed.

Lemma inv_render (P : Viewer -> Prop) :
  canvas_blind P -> invariant P (_render get_pixmap).
Proof.
  intros HP. unfold _render, _render_pages, _display_image.
  inv_auto; try apply inv_get_page_image.
  intros s. apply HP.
Qed.

Ltac unfold_viewer :=
  unfold handle, _open_dialog, _load, _go_animated, _start_flip_animation,
    _animate_flip, _render_flip_frame, read_target, _on_scale, _go, _set_page,
    _update_page_ui, _zoom_in, _zoom_out, _toggle_fit, _toggle_dual_page,
    _render, _render_pages, _display_image, _get_page_image.

(** The stored zoom never leaves [[0.2, 6.0]]. *)
Lemma handle_zoom_ok (ev : event) :
  invariant zoom_ok (handle fitz_open get_pixmap ev).
Proof.
  destruct ev; unfold_viewer; inv_auto;
    try (intros s H; exact H).
  - intros s _. unfold zoom_ok. cbn [zoom set_zoom]. lra.
  - intros s _. unfold zoom_ok. cbn [zoom set_zoom].
    apply sorted3_1_Q_bounds. lra.
  - intros s _. unfold zoom_ok. cbn [zoom set_zoom].
    apply sorted3_1_Q_bounds. lra.
Qed.

Lemma reachable_zoom_ok (s : Viewer) :
  reachable fitz_open get_pixmap s -> zoom_ok s.
Proof.
  induction 1 as [cw ch _ _ | s ev _ IH _].
  - unfold zoom_ok. simpl. lra.
  - apply handle_zoom_ok. exact IH.
Qed.

End Invariants.
(** ** Zoom and scale *)

Lemma sorted3_1_Q_clamp (lo x hi : Q) :
  (lo <= hi)%Q ->
  Py.sorted3_1 Qle_bool lo x hi == Qmax lo (Qmin x hi).
Proof.
  intros Hlh. rewrite sorted3_1_Q by assumption.
  destruct (Qle_bool x hi) eqn:Hxh.
  - apply Qle_bool_iff in Hxh. rewrite (Q.min_l _ _ Hxh).
    destruct (Qle_bool lo x) eqn:Hlx.
    + apply Qle_bool_iff in Hlx. symmetry. apply Q.max_r. exact Hlx.
    + symmetry. apply Q.max_l.
      destruct (Qlt_le_dec x lo) as [H|H]; [apply Qlt_le_weak; exact H|].
      apply Qle_bool_iff in H. congruence.
  - assert (hi <= x)%Q as Hhx.
    { destruct (Qlt_le_dec hi x) as [H|H]; [apply Qlt_le_weak; exact H|].
      apply Qle_bool_iff in H. congruence. }
    rewrite (Q.min_r _ _ Hhx). symmetry. apply Q.max_r. exact Hlh.
Qed.

Section Zoom.

Variable fitz_open : string -> option (list fitz.Page).
Variable get_pixmap : fitz.Page -> Q -> Z * Z.

(** Rendering touches nothing but the canvas image. *)
Lemma render_wipe (s : Viewer) :
  wipe (final (_render get_pixmap s)) = wipe s.
Proof.
  apply (inv_render get_pixmap (fun st => wipe st = wipe s)).
  - intros c st H. exact H.
  - reflexivity.
Qed.

Lemma zoom_in_fields (s : Viewer) :
  zoom (final (_zoom_in get_pixmap s))
  = Py.sorted3_1 Qle_bool 0.2%Q (zoom s * 1.25)%Q 6.0%Q
  /\ fit_mode (final (_zoom_in get_pixmap s)) = false.
Proof.
  unfold _zoom_in, bind, modify.
  split.
  - change (zoom (final (_render get_pixmap ?st)))
      with (zoom (wipe (final (_render get_pixmap st)))).
    rewrite render_wipe. reflexivity.
  - change (fit_mode (final (_render get_pixmap ?st)))
      with (fit_mode (wipe (final (_render get_pixmap st)))).
    rewrite render_wipe. reflexivity.
Qed.

Lemma zoom_out_fields (s : Viewer) :
  zoom (final (_zoom_out get_pixmap s))
  = Py.sorted3_1 Qle_bool 0.2%Q (zoom s / 1.25)%Q 6.0%Q
  /\ fit_mode (final (_zoom_out get_pixmap s)) = false.
Proof.
  unfold _zoom_out, bind, modify.
  split.
  - change (zoom (final (_render get_pixmap ?st)))
      with (zoom (wipe (final (_render get_pixmap st)))).
    rewrite render_wipe. reflexivity.
  - change (fit_mode (final (_render get_pixmap ?st)))
      with (fit_mode (wipe (final (_render get_pixmap st)))).
    rewrite render_wipe. reflexivity.
Qed.

(** C7 (amended). zoomIn stores the zoom times 1.25 and zoomOut the zoom
    divided by 1.25, each clamped to [0.2, 6.0], and each clears fitMode.
    From a stored zoom z, zoomIn then zoomOut gives z back when z * 1.25 <=
    6.0; when z * 1.25 > 6.0, zoomIn pins the zoom at 6.0 and the zoomOut
    that follows leaves 4.8 (6.0 / 1.25), neither z nor the boundary. The
    lower boundary is never hit by zoomIn, as z >= 0.2. *)
Theorem zoom_in_then_out (s : Viewer) :
  reachable fitz_open get_pixmap s ->
  let z_in := zoom (step fitz_open get_pixmap s EvZoomIn) in
  let z_out := zoom (step fitz_open get_pixmap s EvZoomOut) in
  let z_back :=
    zoom (step fitz_open get_pixmap
            (step fitz_open get_pixmap s EvZoomIn) EvZoomOut) in
  z_in == Qmax 0.2 (Qmin (zoom s * 1.25) 6.0)
  /\ fit_mode (step fitz_open get_pixmap s EvZoomIn) = false
  /\ z_out == Qmax 0.2 (Qmin (zoom s / 1.25) 6.0)
  /\ fit_mode (step fitz_open get_pixmap s EvZoomOut) = false
  /\ (0.2 <= zoom s * 1.25)%Q
  /\ (zoom s * 1.25 <= 6.0 -> z_back == zoom s)%Q
  /\ (6.0 < zoom s * 1.25 -> z_in == 6.0 /\ z_back == 4.8)%Q.
Proof.
  intros Hreach z_in z_out z_back.
  pose proof (reachable_zoom_ok fitz_open get_pixmap s Hreach) as [Hlo Hhi].
  subst z_in z_out z_back. unfold step. cbn [handle].
  destruct (zoom_in_fields s) as [Hin Hfin].
  destruct (zoom_out_fields s) as [Hout Hfout].
  destruct (zoom_out_fields (final (_zoom_in get_pixmap s))) as [Hback _].
  rewrite Hback, Hin, Hout.
  split; [apply sorted3_1_Q_clamp; lra|].
  split; [exact Hfin|].
  split; [apply sorted3_1_Q_clamp; lra|].
  split; [exact Hfout|].
  split; [lra|]. split.
  - intros Hle.
    rewrite (sorted3_1_Q_inside 0.2%Q (zoom s * 1.25)%Q 6.0%Q) by lra.
    rewrite sorted3_1_Q_inside.
    + field.
    + apply Qle_shift_div_l; lra.
    + apply Qle_shift_div_r; lra.
  - intros Hgt.
    rewrite (sorted3_1_Q_above 0.2%Q (zoom s * 1.25)%Q 6.0%Q) by lra.
    split; [reflexivity|].
    rewrite sorted3_1_Q_inside; [reflexivity | |]; apply Qle_bool_iff; reflexivity.
Qed.


End Zoom.

Lemma zoom_in_then_out_witness :
  zoom (step Example.opener Example.pixmap
          (step Example.opener Example.pixmap Example.start EvZoomIn)
          EvZoomOut)
  == zoom Example.start.
Proof.
  destruct (zoom_in_then_out Example.opener Example.pixmap Example.start)
    as (_ & _ & _ & _ & _ & Hback & _).
  - apply reach_init; lia.
  - apply Hback. apply Qle_bool_iff. vm_compute. reflexivity.
Defined.

(** C7, as stated, fails. At the stored zoom 6.0, reached by nine zoom-in
    steps, zoomIn keeps 6.0 and the zoomOut that follows stores 4.8: the zoom
    is neither restored nor left at a boundary. *)
Lemma zoom_in_then_out_at_ceiling :
  let s := Example.zoomed_max in
  let s2 :=
    step Example.opener Example.pixmap
      (step Example.opener Example.pixmap s EvZoomIn) EvZoomOut in
  reachable Example.opener Example.pixmap s
  /\ zoom s == 6.0
  /\ zoom s2 == 4.8
  /\ ~ zoom s2 == zoom s /\ ~ zoom s2 == 6.0 /\ ~ zoom s2 == 0.2.
Proof.
  cbv zeta. split.
  { unfold Example.zoomed_max, Example.run. cbn [repeat fold_left].
    repeat (apply reach_step; [|exact I]). apply reach_init; lia. }
  split; [vm_compute; reflexivity|].
  split; [vm_compute; reflexivity|].
  repeat split; intros H; vm_compute in H; discriminate.
Qed.



(** ** Opening a document *)

Section Loading.

Variable fitz_open : string -> option (list fitz.Page).
Variable get_pixmap : fitz.Page -> Q -> Z * Z.

Lemma wipe_fields (a b : Viewer) :
  wipe a = wipe b ->
  heap a = heap b /\ doc a = doc b /\ page_count a = page_count b
  /\ page_index a = page_index b /\ zoom a = zoom b
  /\ fit_mode a = fit_mode b /\ dual_page_mode a = dual_page_mode b
  /\ is_animating a = is_animating b
  /\ target_page_index a = target_page_index b
  /\ after_pending a = after_pending b.
Proof.
  intros H.
  repeat split;
    [ apply (f_equal heap) in H | apply (f_equal doc) in H
    | apply (f_equal page_count) in H | apply (f_equal page_index) in H
    | apply (f_equal zoom) in H | apply (f_equal fit_mode) in H
    | apply (f_equal dual_page_mode) in H | apply (f_equal is_animating) in H
    | apply (f_equal target_page_index) in H
    | apply (f_equal after_pending) in H ];
    exact H.
Qed.

(** A closed document with pages cannot be rendered. *)
Lemma render_closed (s : Viewer) (d : fitz.Document) :
  the_doc s = Some d -> fitz.is_closed d = true -> 0 < fitz.len d ->
  _render get_pixmap s = Raise ValueError s.
Proof.
  intros Hd Hc Hn. unfold _render, bind, get.
  unfold doc_truthy. rewrite Hd.
  destruct (Z.ltb_spec 0 (fitz.len d)); [|lia].
  unfold _render_pages, bind, get.
  assert (H1 : forall i, _get_page_image get_pixmap i s = Raise ValueError s).
  { intros i. unfold _get_page_image, bind, get. rewrite Hd.
    unfold fitz.load_page. rewrite Hc. reflexivity. }
  unfold pages_to_render.
  destruct (negb (dual_page_mode s) || (page_count s <=? page_index s + 1));
    simpl; unfold bind; rewrite H1; reflexivity.
Qed.

(** C2 (amended). When [fitz.open] refuses the path while the viewer is on
    a document that is not closed, [_load] raises DocumentOpenError and the
    stored handle, page count, page index, zoom, fit mode and dual-page flag
    are what they were, but a document with pages has already been closed:
    the viewer still refers to it and rendering it raises. A document
    without pages is left as it was. *)
Theorem load_failure_closes_previous (s : Viewer) (path : string)
    (h : nat) (d : fitz.Document) :
  fitz_open path = None ->
  doc s = Some h -> heap s !! h = Some d -> fitz.is_closed d = false ->
  let s' := final (_load fitz_open get_pixmap path s) in
  raised (_load fitz_open get_pixmap path s) = Some DocumentOpenError
  /\ doc s' = doc s /\ page_count s' = page_count s
  /\ page_index s' = page_index s /\ zoom s' = zoom s
  /\ fit_mode s' = fit_mode s /\ dual_page_mode s' = dual_page_mode s
  /\ canvas_image s' = canvas_image s
  /\ (0 < fitz.len d ->
      the_doc s' = Some (fitz.close d)
      /\ _render get_pixmap s' = Raise ValueError s')
  /\ (fitz.len d = 0 -> s' = s).
Proof.
  intros Hopen Hdoc Hheap _ s'. subst s'.
  assert (Hthe : the_doc s = Some d) by (unfold the_doc; rewrite Hdoc; exact Hheap).
  assert (Hload : _load fitz_open get_pixmap path s
                  = Raise DocumentOpenError
                      (if 0 <? fitz.len d
                       then set_heap (<[h := fitz.close d]> (heap s)) s
                       else s)).
  { unfold _load, bind, get. rewrite Hdoc, Hthe. unfold doc_truthy. rewrite Hthe.
    destruct (0 <? fitz.len d); unfold modify, ret; rewrite Hopen; reflexivity. }
  rewrite Hload. cbn [final raised].
  destruct (Z.ltb_spec 0 (fitz.len d)) as [Hpos|Hzero].
  - assert (Hthe' : the_doc (set_heap (<[h := fitz.close d]> (heap s)) s)
                    = Some (fitz.close d)).
    { unfold the_doc. cbn [doc heap set_heap]. rewrite Hdoc.
      apply list_lookup_insert_eq. eapply lookup_lt_Some. exact Hheap. }
    do 8 (split; [reflexivity|]). split.
    + intros _. split; [exact Hthe'|].
      apply (render_closed _ (fitz.close d)); [exact Hthe' | reflexivity | exact Hpos].
    + intros Hz. lia.
  - do 8 (split; [reflexivity|]). split.
    + intros Hpos. lia.
    + reflexivity.
Qed.

(** When the path opens, [_load] closes the previous document if it is
    truthy, installs the new one with the view reset, and ends by rendering. *)
Lemma load_opened (s : Viewer) (path : string) (pgs : list fitz.Page) :
  fitz_open path = Some pgs ->
  exists hp st,
    _load fitz_open get_pixmap path s = _render get_pixmap st
    /\ length hp = length (heap s)
    /\ (forall h d, doc s = Some h -> heap s !! h = Some d ->
                    0 < fitz.len d -> hp !! h = Some (fitz.close d))
    /\ heap st = hp ++ [fitz.mkDocument pgs false]
    /\ doc st = Some (length hp)
    /\ page_count st = fitz.len (fitz.mkDocument pgs false)
    /\ page_index st = 0 /\ zoom st = 1.0%Q /\ fit_mode st = true
    /\ dual_page_mode st = dual_page_mode s
    /\ is_animating st = is_animating s
    /\ after_pending st = after_pending s
    /\ canvas_image st = canvas_image s.
Proof.
  intros Hopen.
  assert (Hclosing : exists hp,
             (match doc s, the_doc s with
              | Some h, Some d =>
                  if doc_truthy s
                  then modify (set_heap (<[h := fitz.close d]> (heap s)))
                  else ret tt
              | _, _ => ret tt
              end) s = Ok tt (set_heap hp s)
             /\ length hp = length (heap s)
             /\ forall h d, doc s = Some h -> heap s !! h = Some d ->
                            0 < fitz.len d -> hp !! h = Some (fitz.close d)).
  { unfold the_doc, doc_truthy, the_doc.
    destruct (doc s) as [h|] eqn:Hdoc.
    - destruct (heap s !! h) as [d|] eqn:Hheap.
      + destruct (Z.ltb_spec 0 (fitz.len d)) as [Hpos|Hzero].
        * exists (<[h := fitz.close d]> (heap s)). split; [reflexivity|].
          split; [apply length_insert|].
          intros h' d' [= <-] Hd' _. rewrite Hheap in Hd'.
          injection Hd' as <-. apply list_lookup_insert_eq.
          eapply lookup_lt_Some. exact Hheap.
        * exists (heap s). split; [|split; [reflexivity|]].
          { unfold ret. f_equal. destruct s; reflexivity. }
          intros h' d' [= <-] Hd' Hpos. rewrite Hheap in Hd'.
          injection Hd' as <-. lia.
      + exists (heap s). split; [|split; [reflexivity|]].
        { unfold ret. f_equal. destruct s; reflexivity. }
        intros h' d' [= <-] Hd' _. rewrite Hheap in Hd'. discriminate.
    - exists (heap s). split; [|split; [reflexivity|]].
      { unfold ret. f_equal. destruct s; reflexivity. }
      intros h' d' [=]. }
  destruct Hclosing as (hp & Hcl & Hlen & Hclosed).
  exists hp. eexists. split.
  { unfold _load, bind, get. rewrite Hcl, Hopen. unfold modify. reflexivity. }
  split; [exact Hlen|]. split; [exact Hclosed|]. repeat split.
Qed.

(** C3 (amended). When the path opens and the viewer is not on a closed
    document, [_load] leaves page index 0, zoom 1.0 and fit mode on, and the
    viewer on the new document; the dual-page flag keeps its value; the
    previously open document has been closed if it has pages. *)
Theorem load_success_resets (s : Viewer) (path : string)
    (pgs : list fitz.Page) :
  fitz_open path = Some pgs -> doc_closed s = false ->
  let s' := final (_load fitz_open get_pixmap path s) in
  page_index s' = 0 /\ zoom s' = 1.0%Q /\ fit_mode s' = true
  /\ dual_page_mode s' = dual_page_mode s
  /\ the_doc s' = Some (fitz.mkDocument pgs false)
  /\ page_count s' = fitz.len (fitz.mkDocument pgs false)
  /\ (forall h d, doc s = Some h -> heap s !! h = Some d -> 0 < fitz.len d ->
      heap s' !! h = Some (fitz.close d)).
Proof.
  intros Hopen _ s'. subst s'.
  destruct (load_opened s path pgs Hopen)
    as (hp & st & -> & Hlen & Hclosed & Hh & Hd & Hpc & Hpi & Hz & Hf & Hdu & _).
  destruct (wipe_fields _ _ (render_wipe get_pixmap st))
    as (Hh' & Hd' & Hpc' & Hpi' & Hz' & Hf' & Hdu' & _).
  rewrite Hpi', Hz', Hf', Hdu', Hpc'. unfold the_doc. rewrite Hd', Hh', Hd, Hh.
  repeat split; try assumption.
  - apply list_lookup_middle. reflexivity.
  - intros h d H1 H2 H3. rewrite lookup_app_l.
    + apply (Hclosed h d H1 H2 H3).
    + rewrite Hlen. eapply lookup_lt_Some. exact H2.
Qed.

End Loading.

Lemma load_failure_closes_previous_witness :
  let s' :=
    final (_load Example.opener Example.pixmap "missing.pdf" Example.opened) in
  page_index s' = page_index Example.opened
  /\ _render Example.pixmap s' = Raise ValueError s'.
Proof.
  destruct (load_failure_closes_previous Example.opener Example.pixmap
              Example.opened "missing.pdf" 0%nat
              (fitz.mkDocument (repeat Example.letter 10) false))
    as (_ & _ & _ & Hpi & _ & _ & _ & _ & Hclosed & _).
  - reflexivity.
  - vm_compute. reflexivity.
  - vm_compute. reflexivity.
  - reflexivity.
  - split; [exact Hpi|]. apply Hclosed. reflexivity.
Defined.

(** C2, as stated, fails. With the ten-page document open, a refused open
    leaves a state other than the one before the call, and the document
    that rendered before the call raises when rendered after it. *)
Lemma load_failure_not_atomic :
  let s := Example.opened in
  let s' := final (_load Example.opener Example.pixmap "missing.pdf" s) in
  raised (_load Example.opener Example.pixmap "missing.pdf" s)
  = Some DocumentOpenError
  /\ raised (_render Example.pixmap s) = None
  /\ s' <> s
  /\ raised (_render Example.pixmap s') = Some ValueError.
Proof.
  cbv zeta. split; [vm_compute; reflexivity|].
  split; [vm_compute; reflexivity|]. split.
  - intros H. apply (f_equal heap) in H. vm_compute in H. discriminate.
  - vm_compute. reflexivity.
Qed.

Lemma load_success_resets_witness :
  let s' := final (_load Example.opener Example.pixmap "ten.pdf" Example.start) in
  page_index s' = 0 /\ zoom s' = 1.0%Q /\ fit_mode s' = true
  /\ dual_page_mode s' = dual_page_mode Example.start.
Proof.
  destruct (load_success_resets Example.opener Example.pixmap Example.start
              "ten.pdf" (repeat Example.letter 10))
    as (H1 & H2 & H3 & H4 & _).
  - reflexivity.
  - reflexivity.
  - repeat split; assumption.
Defined.

(** C3, as stated, fails. Opening a document while dual-page mode is on
    resets the page index, the zoom and the fit mode and leaves dual-page
    mode on. *)
Lemma load_keeps_dual_page_mode :
  let s := Example.opened_dual in
  let s' := final (_load Example.opener Example.pixmap "ten.pdf" s) in
  raised (_load Example.opener Example.pixmap "ten.pdf" s) = None
  /\ dual_page_mode s = true
  /\ page_index s' = 0 /\ fit_mode s' = true
  /\ dual_page_mode s' = true.
Proof. cbv zeta. repeat split; vm_compute; reflexivity. Qed.

(** ** A document without pages *)

Section EmptyDocument.

Variable fitz_open : string -> option (list fitz.Page).
Variable get_pixmap : fitz.Page -> Q -> Z * Z.

Lemma render_falsy (s : Viewer) :
  doc_truthy s = false -> _render get_pixmap s = Ok tt s.
Proof. intros H. unfold _render, bind, get. rewrite H. reflexivity. Qed.

(** What each binding other than Open does while [self.doc] is falsy. *)
Lemma handle_idle_empty (s : Viewer) (ev : event) :
  idle_empty s ->
  handle fitz_open get_pixmap ev s
  = match ev with
    | EvOpen path => handle fitz_open get_pixmap ev s
    | EvLeft | EvRight | EvAfter => Ok tt s
    | EvZoomIn =>
        Ok tt (set_zoom (Py.sorted3_1 Qle_bool 0.2%Q (zoom s * 1.25)%Q 6.0%Q)
                 (set_fit_mode false s))
    | EvZoomOut =>
        Ok tt (set_zoom (Py.sorted3_1 Qle_bool 0.2%Q (zoom s / 1.25)%Q 6.0%Q)
                 (set_fit_mode false s))
    | EvFit => Ok tt (set_fit_mode (negb (fit_mode s)) s)
    | EvDual => Ok tt (set_dual_page_mode (negb (dual_page_mode s)) s)
    | EvScale v => Ok tt (set_page_scale_value v s)
    | EvConfigure w h => Ok tt (set_canvas_width w (set_canvas_height h s))
    end.
Proof.
  intros (Hd & Ha & Hp). destruct ev; cbn [handle]; try reflexivity.
  - unfold bind, get, _go_animated, bind, get. rewrite Hd. reflexivity.
  - unfold bind, get, _go_animated, bind, get. rewrite Hd. reflexivity.
  - unfold _zoom_in, bind, modify. apply render_falsy. exact Hd.
  - unfold _zoom_out, bind, modify. apply render_falsy. exact Hd.
  - unfold _toggle_fit, bind, modify. apply render_falsy. exact Hd.
  - unfold _toggle_dual_page, bind, modify. apply render_falsy. exact Hd.
  - unfold bind, modify, _on_scale, _go, bind, get.
    change (doc_truthy (set_page_scale_value v s)) with (doc_truthy s).
    rewrite Hd. reflexivity.
  - unfold bind, modify, get.
    change (doc_truthy (set_canvas_width w (set_canvas_height h s)))
      with (doc_truthy s).
    rewrite Hd, andb_false_r. reflexivity.
  - unfold bind, get. rewrite Hp. reflexivity.
Qed.

Lemma step_idle_empty (s : Viewer) (ev : event) :
  idle_empty s -> is_open ev = false ->
  idle_empty (step fitz_open get_pixmap s ev)
  /\ page_index (step fitz_open get_pixmap s ev) = page_index s
  /\ canvas_image (step fitz_open get_pixmap s ev) = canvas_image s.
Proof.
  intros Hs Hev. unfold step. rewrite (handle_idle_empty s ev Hs).
  destruct Hs as (Hd & Ha & Hp).
  destruct ev; try discriminate; cbn [final];
    (split; [split; [exact Hd | split; [exact Ha | exact Hp]] | split; reflexivity]).
Qed.

Lemma run_idle_empty (evs : list event) (s : Viewer) :
  idle_empty s -> forallb (fun ev => negb (is_open ev)) evs = true ->
  idle_empty (fold_left (step fitz_open get_pixmap) evs s)
  /\ page_index (fold_left (step fitz_open get_pixmap) evs s) = page_index s
  /\ canvas_image (fold_left (step fitz_open get_pixmap) evs s) = canvas_image s.
Proof.
  revert s. induction evs as [|ev evs IH]; intros s Hs Hevs.
  - repeat split; apply Hs.
  - simpl in Hevs. apply andb_prop in Hevs as [Hev Hevs].
    apply negb_true_iff in Hev.
    destruct (step_idle_empty s ev Hs Hev) as (Hs' & Hpi & Hci).
    destruct (IH _ Hs' Hevs) as (H1 & H2 & H3).
    simpl. rewrite H2, H3. repeat split; try assumption; apply H1.
Qed.

(** C9 (amended). Opening a document without pages, from an idle viewer
    that is not on a closed document, does not raise, and from then on,
    through any bindings other than Open, no binding raises, the page index
    stays 0 and nothing is drawn; prev, next and the slider leave the viewer
    as it is (the slider itself moves); zoom in and zoom out still store the
    clamped new zoom and clear the fit mode. *)
Theorem empty_document_session (s0 : Viewer) (path : string)
    (evs : list event) :
  fitz_open path = Some [] -> doc_closed s0 = false ->
  is_animating s0 = false -> after_pending s0 = 0%nat ->
  forallb (fun ev => negb (is_open ev)) evs = true ->
  let opened := final (_load fitz_open get_pixmap path s0) in
  let s := fold_left (step fitz_open get_pixmap) evs opened in
  raised (_load fitz_open get_pixmap path s0) = None
  /\ page_count opened = 0 /\ page_index s = 0
  /\ canvas_image s = canvas_image s0
  /\ (forall ev, is_open ev = false ->
        raised (handle fitz_open get_pixmap ev s) = None
        /\ page_index (step fitz_open get_pixmap s ev) = 0)
  /\ step fitz_open get_pixmap s EvLeft = s
  /\ step fitz_open get_pixmap s EvRight = s
  /\ (forall v, final (_on_scale get_pixmap v s) = s)
  /\ step fitz_open get_pixmap s EvZoomIn
     = set_zoom (Py.sorted3_1 Qle_bool 0.2%Q (zoom s * 1.25)%Q 6.0%Q)
         (set_fit_mode false s)
  /\ step fitz_open get_pixmap s EvZoomOut
     = set_zoom (Py.sorted3_1 Qle_bool 0.2%Q (zoom s / 1.25)%Q 6.0%Q)
         (set_fit_mode false s).
Proof.
  intros Hopen _ Hanim Hpend Hevs opened s.
  destruct (load_opened fitz_open get_pixmap s0 path [] Hopen)
    as (hp & st & Hload & Hlen & _ & Hh & Hd & Hpc & Hpi & _ & _ & _
        & Ha & Hp & Hc).
  assert (Hfalsy : doc_truthy st = false).
  { unfold doc_truthy, the_doc. rewrite Hd, Hh.
    rewrite list_lookup_middle by reflexivity. reflexivity. }
  assert (Hopened : opened = st).
  { subst opened. rewrite Hload, (render_falsy st Hfalsy). reflexivity. }
  assert (Hidle : idle_empty opened).
  { rewrite Hopened. split; [exact Hfalsy|]. split; congruence. }
  destruct (run_idle_empty evs opened Hidle Hevs) as (Hs & Hspi & Hsc).
  fold s in Hs, Hspi, Hsc.
  split. { rewrite Hload, (render_falsy st Hfalsy). reflexivity. }
  split. { rewrite Hopened. exact Hpc. }
  split. { rewrite Hspi, Hopened. exact Hpi. }
  split. { rewrite Hsc, Hopened. exact Hc. }
  split.
  { intros ev Hev.
    destruct (step_idle_empty s ev Hs Hev) as (_ & Hpi' & _).
    split.
    - rewrite (handle_idle_empty s ev Hs). destruct ev; try discriminate; reflexivity.
    - rewrite Hpi', Hspi, Hopened. exact Hpi. }
  unfold step. rewrite !(handle_idle_empty s _ Hs). cbn [final].
  do 2 (split; [reflexivity|]). split; [|split; reflexivity].
  intros v. unfold _on_scale, _go, bind, get.
  destruct Hs as (Hd' & _). rewrite Hd'. reflexivity.
Qed.

End EmptyDocument.

Lemma empty_document_session_witness :
  let opened :=
    final (_load Example.opener Example.pixmap "empty.pdf" Example.start) in
  let s := fold_left (step Example.opener Example.pixmap) [] opened in
  step Example.opener Example.pixmap s EvRight = s
  /\ step Example.opener Example.pixmap s EvZoomIn
     = set_zoom (Py.sorted3_1 Qle_bool 0.2%Q (zoom s * 1.25)%Q 6.0%Q)
         (set_fit_mode false s).
Proof.
  pose proof (empty_document_session Example.opener Example.pixmap
                Example.start "empty.pdf" [] eq_refl eq_refl eq_refl eq_refl
                eq_refl)
    as H.
  cbv zeta in H |- *.
  destruct H as (_ & _ & _ & _ & _ & _ & Hright & _ & Hin & _).
  split; [exact Hright | exact Hin].
Defined.

(** C9, as stated, fails. With the document without pages open, zoom in
    changes the stored zoom from 1.0 to 1.25 and switches the fit mode off. *)
Lemma zoom_in_changes_empty_document :
  let s := Example.opened_empty in
  let s' := step Example.opener Example.pixmap s EvZoomIn in
  page_count s = 0
  /\ zoom s == 1 /\ fit_mode s = true
  /\ zoom s' == 1.25 /\ fit_mode s' = false
  /\ s' <> s.
Proof.
  cbv zeta. do 5 (split; [vm_compute; reflexivity|]).
  intros H. apply (f_equal fit_mode) in H. vm_compute in H. discriminate.
Qed.

(** ** The flip animation, tick by tick *)

Section Animation.

Variable fitz_open : string -> option (list fitz.Page).
Variable get_pixmap : fitz.Page -> Q -> Z * Z.

Lemma minQ_below (a b : Q) : (b < a)%Q -> Py.minQ a b = b.
Proof.
  intros H. unfold Py.minQ. destruct (Qlt_le_dec b a) as [_|H']; [reflexivity|].
  exfalso. apply (Qlt_not_le _ _ H H').
Qed.

Lemma minQ_above (a b : Q) : (a <= b)%Q -> Py.minQ a b = a.
Proof.
  intros H. unfold Py.minQ. destruct (Qlt_le_dec b a) as [H'|_]; [|reflexivity].
  exfalso. apply (Qlt_not_le _ _ H' H).
Qed.

(** A tick that does not reach progress 1.0 draws a flip frame, leaves one
    more callback pending and changes nothing else. *)
Lemma animate_flip_running (s : Viewer) (t : Z) :
  renderable s = true -> valid_index s (page_index s) = true ->
  target_page_index s = Some t -> valid_index s t = true ->
  (animation_progress s + 0.15 < 1)%Q ->
  exists s',
    _animate_flip get_pixmap s = Ok tt s'
    /\ renderable s' = true /\ page_count s' = page_count s
    /\ page_index s' = page_index s /\ target_page_index s' = Some t
    /\ is_animating s' = is_animating s
    /\ after_pending s' = S (after_pending s)
    /\ animation_progress s' = (animation_progress s + 0.15)%Q.
Proof.
  intros Hr Hi Ht Hv Hp.
  set (s1 := set_animation_progress (animation_progress s + 0.15)%Q s).
  destruct (render_flip_frame_ok get_pixmap s1 t Hr Hi Ht Hv)
    as (imgs & _ & _ & _ & Hframe).
  cbv zeta in Hframe.
  unfold _animate_flip, bind, modify. rewrite minQ_below by lra.
  fold s1. rewrite Hframe. unfold get.
  cbn [animation_progress set_canvas_image s1 set_animation_progress].
  destruct (Qle_bool 1.0 (animation_progress s + 0.15)) eqn:E.
  { apply Qle_bool_iff in E. lra. }
  eexists. split; [reflexivity|]. repeat split; assumption.
Qed.

(** The tick that reaches progress 1.0 stores the target as page index,
    ends the animation, schedules nothing and renders the steady view. *)
Lemma animate_flip_last (s : Viewer) (t : Z) :
  renderable s = true -> valid_index s (page_index s) = true ->
  target_page_index s = Some t -> valid_index s t = true ->
  (1 <= animation_progress s + 0.15)%Q ->
  exists s',
    _animate_flip get_pixmap s = Ok tt s'
    /\ renderable s' = true /\ page_count s' = page_count s
    /\ page_index s' = t /\ is_animating s' = false
    /\ after_pending s' = after_pending s
    /\ animation_progress s' = 1.0%Q
    /\ exists x y img,
         canvas_image s' = Some (x, y, img)
         /\ map fst (Image.shows img) = pages_to_render s t.
Proof.
  intros Hr Hi Ht Hv Hp.
  set (s1 := set_animation_progress 1.0%Q s).
  destruct (render_flip_frame_ok get_pixmap s1 t Hr Hi Ht Hv)
    as (imgs & _ & _ & _ & Hframe).
  cbv zeta in Hframe.
  unfold _animate_flip, bind, modify. rewrite minQ_above by lra.
  fold s1. rewrite Hframe. unfold get.
  cbn [animation_progress set_canvas_image s1 set_animation_progress].
  change (Qle_bool 1.0 1.0) with true. cbv iota.
  unfold read_target, bind, get.
  cbn [target_page_index set_canvas_image s1 set_animation_progress].
  rewrite Ht. unfold ret, _update_page_ui, modify.
  match goal with
  | |- context [_render get_pixmap ?st] =>
      destruct (render_ok get_pixmap st Hr Hv) as (x & y & img & Hrender & Hshows);
      rewrite Hrender
  end.
  eexists. split; [reflexivity|].
  repeat split; try assumption.
  exists x, y, img. split; [reflexivity | exact Hshows].
Qed.

(** A pending callback fires: one tick. *)
Lemma handle_after (s : Viewer) (n : nat) :
  after_pending s = S n ->
  handle fitz_open get_pixmap EvAfter s
  = _animate_flip get_pixmap (set_after_pending n s).
Proof.
  intros H. cbn [handle]. unfold bind, get. rewrite H. reflexivity.
Qed.

(** The state of a flip to page [t] after the first tick and [k] timer
    ticks. *)
Lemma flip_running_after (s : Viewer) (t direction : Z) (k : nat) :
  renderable s = true -> valid_index s (page_index s) = true ->
  valid_index s t = true -> t <> page_index s ->
  after_pending s = 0%nat -> (k <= 5)%nat ->
  let s' := Nat.iter k (fun st => step fitz_open get_pixmap st EvAfter)
              (final (_start_flip_animation get_pixmap t direction s)) in
  renderable s' = true /\ page_count s' = page_count s
  /\ page_index s' = page_index s /\ target_page_index s' = Some t
  /\ is_animating s' = true /\ after_pending s' = 1%nat
  /\ animation_progress s' == inject_Z (Z.of_nat (S k)) * 0.15.
Proof.
  intros Hr Hi Hv Hne Hpend Hk. induction k as [|k IH].
  - cbv zeta. cbn [Nat.iter nat_rect]. unfold _start_flip_animation, bind, get, modify.
    destruct (Z.eqb_spec t (page_index s)) as [E|_]; [contradiction|].
    match goal with
    | |- context [_animate_flip get_pixmap ?st] =>
        destruct (animate_flip_running st t Hr Hi eq_refl Hv)
          as (s' & Hrun & Hr' & Hpc & Hpi & Ht & Ha & Hp & Hprog)
    end.
    { cbn [animation_progress set_target_page_index set_animation_progress]. lra. }
    rewrite Hrun. cbn [final].
    split; [exact Hr'|]. split; [exact Hpc|]. split; [exact Hpi|].
    split; [exact Ht|]. split; [exact Ha|]. split.
    + rewrite Hp. cbn [after_pending set_target_page_index set_animation_progress
                       set_animation_direction set_is_animating].
      rewrite Hpend. reflexivity.
    + rewrite Hprog. cbn [animation_progress set_target_page_index
                          set_animation_progress]. reflexivity.
  - specialize (IH ltac:(lia)). cbv zeta in IH |- *.
    rewrite Nat.iter_succ.
    set (st := Nat.iter k (fun st => step fitz_open get_pixmap st EvAfter)
                 (final (_start_flip_animation get_pixmap t direction s))) in *.
    destruct IH as (Hr' & Hpc & Hpi & Ht & Ha & Hp & Hprog).
    unfold step. rewrite (handle_after st 0 Hp).
    assert (Hi' : valid_index st (page_index st) = true).
    { unfold valid_index. rewrite Hpi, Hpc. exact Hi. }
    assert (Hv' : valid_index st t = true).
    { unfold valid_index. rewrite Hpc. exact Hv. }
    destruct (animate_flip_running (set_after_pending 0 st) t Hr' Hi' Ht Hv')
      as (s' & Hrun & Hr'' & Hpc' & Hpi' & Ht' & Ha' & Hp' & Hprog').
    { cbn [animation_progress set_after_pending]. rewrite Hprog.
      assert (inject_Z (Z.of_nat (S k)) <= 5)%Q.
      { change 5%Q with (inject_Z 5). rewrite <- Zle_Qle. lia. }
      lra. }
    rewrite Hrun. cbn [final].
    split; [exact Hr''|]. split; [rewrite Hpc'; exact Hpc|].
    split; [rewrite Hpi'; exact Hpi|].
    split; [exact Ht'|]. split; [rewrite Ha'; exact Ha|].
    split; [rewrite Hp'; reflexivity|].
    rewrite Hprog'. cbn [animation_progress set_after_pending]. rewrite Hprog.
    rewrite (Nat2Z.inj_succ (S k)). unfold Z.succ. rewrite inject_Z_plus. ring.
Qed.

(** C5. A flip started at progress 0 advances by 0.15 per tick, clamped at
    1.0: the tick inside [_start_flip_animation] and five timer ticks leave
    it running below 1.0 on the source page, and the next tick, the seventh,
    reaches progress 1.0, stores the target as page index and ends the
    animation with no callback pending. *)
Theorem flip_completes_in_seven_ticks (s : Viewer) (t direction : Z) :
  renderable s = true -> valid_index s (page_index s) = true ->
  valid_index s t = true -> t <> page_index s ->
  after_pending s = 0%nat ->
  let started := final (_start_flip_animation get_pixmap t direction s) in
  let after k :=
    Nat.iter k (fun st => step fitz_open get_pixmap st EvAfter) started in
  (forall k, (k <= 5)%nat ->
     is_animating (after k) = true
     /\ page_index (after k) = page_index s
     /\ target_page_index (after k) = Some t
     /\ after_pending (after k) = 1%nat
     /\ animation_progress (after k) == inject_Z (Z.of_nat (S k)) * 0.15
     /\ (animation_progress (after k) < 1)%Q)
  /\ animation_progress (after 6%nat) == 1
  /\ page_index (after 6%nat) = t
  /\ is_animating (after 6%nat) = false
  /\ after_pending (after 6%nat) = 0%nat.
Proof.
  intros Hr Hi Hv Hne Hpend started after. split.
  - intros k Hk.
    destruct (flip_running_after s t direction k Hr Hi Hv Hne Hpend Hk)
      as (_ & _ & Hpi & Ht & Ha & Hp & Hprog).
    fold started in Hpi, Ht, Ha, Hp, Hprog. fold (after k) in Hpi, Ht, Ha, Hp, Hprog.
    repeat split; try assumption.
    rewrite Hprog.
    assert (inject_Z (Z.of_nat (S k)) <= 6)%Q.
    { change 6%Q with (inject_Z 6). rewrite <- Zle_Qle. lia. }
    lra.
  - destruct (flip_running_after s t direction 5 Hr Hi Hv Hne Hpend (le_n 5))
      as (Hr' & Hpc & Hpi & Ht & Ha & Hp & Hprog).
    fold started in Hr', Hpc, Hpi, Ht, Ha, Hp, Hprog.
    fold (after 5%nat) in Hr', Hpc, Hpi, Ht, Ha, Hp, Hprog.
    change (after 6%nat) with (step fitz_open get_pixmap (after 5%nat) EvAfter).
    set (st := after 5%nat) in *.
    unfold step. rewrite (handle_after st 0 Hp).
    assert (Hi' : valid_index st (page_index st) = true).
    { unfold valid_index. rewrite Hpi, Hpc. exact Hi. }
    assert (Hv' : valid_index st t = true).
    { unfold valid_index. rewrite Hpc. exact Hv. }
    destruct (animate_flip_last (set_after_pending 0 st) t Hr' Hi' Ht Hv')
      as (s' & Hrun & _ & _ & Hpi' & Ha' & Hp' & Hprog' & _).
    { cbn [animation_progress set_after_pending]. rewrite Hprog.
      change (inject_Z (Z.of_nat 6)) with 6%Q. lra. }
    rewrite Hrun. cbn [final].
    repeat split; try assumption.
    rewrite Hprog'. reflexivity.
Qed.

End Animation.

Lemma flip_completes_in_seven_ticks_witness :
  let started :=
    final (_start_flip_animation Example.pixmap 5 1
             (set_page_index 2 Example.opened)) in
  let after k :=
    Nat.iter k (fun st => step Example.opener Example.pixmap st EvAfter)
      started in
  animation_progress (after 6%nat) == 1
  /\ page_index (after 6%nat) = 5
  /\ is_animating (after 6%nat) = false
  /\ after_pending (after 6%nat) = 0%nat.
Proof.
  pose proof (flip_completes_in_seven_ticks Example.opener Example.pixmap
                (set_page_index 2 Example.opened) 5 1) as H.
  cbv zeta in H |- *. apply H.
  - vm_compute. reflexivity.
  - vm_compute. reflexivity.
  - vm_compute. reflexivity.
  - discriminate.
  - vm_compute. reflexivity.
Defined.

(** ** Direct page selection *)

(** C1: the slider path does not align the index. In dual-page mode on the
    ten-page document, moving the slider to 8 is [_go(7)]: the stored page
    index becomes 7, an odd index, and pages 7 and 8 are drawn as the
    spread, while [_go_animated(7, 1)] from the same state targets 6. *)
Theorem jump_to_7_in_dual_mode_stays_odd :
  let s := Example.opened_dual in
  let s' := step Example.opener Example.pixmap s (EvScale 8) in
  reachable Example.opener Example.pixmap s
  /\ deliverable s (EvScale 8)
  /\ dual_page_mode s = true /\ page_count s = 10
  /\ raised (handle Example.opener Example.pixmap (EvScale 8) s) = None
  /\ dual_page_mode s' = true
  /\ page_index s' = 7 /\ Z.even (page_index s') = false
  /\ (exists x y img, canvas_image s' = Some (x, y, img)
                      /\ map fst (Image.shows img) = [7; 8])
  /\ target_page_index (final (_go_animated Example.pixmap 7 1 s)) = Some 6.
Proof.
  cbv zeta. split.
  { unfold Example.opened_dual, Example.run. cbn [fold_left].
    repeat (apply reach_step; [|exact I]). apply reach_init; lia. }
  split.
  { cbn [deliverable]. split; apply Qle_bool_iff; vm_compute; reflexivity. }
  do 6 (split; [vm_compute; reflexivity|]).
  split; [|vm_compute; reflexivity].
  do 3 eexists. split; vm_compute; reflexivity.
Qed.

(** C4: the slider path has no [is_animating] guard. One tick into the flip
    from page 0 to page 1, next is ignored, but moving the slider to 5
    stores page index 4 at once, with the transition still running toward
    its target. *)
Theorem slider_moves_page_during_flip :
  let s := Example.flipping in
  let s' := step Example.opener Example.pixmap s (EvScale 5) in
  reachable Example.opener Example.pixmap s
  /\ deliverable s (EvScale 5)
  /\ is_animating s = true /\ (animation_progress s < 1)%Q
  /\ page_index s = 0 /\ target_page_index s = Some 1
  /\ step Example.opener Example.pixmap s EvRight = s
  /\ step Example.opener Example.pixmap s EvLeft = s
  /\ page_index s' = 4
  /\ is_animating s' = true /\ (animation_progress s' < 1)%Q
  /\ target_page_index s' = Some 1.
Proof.
  cbv zeta. split.
  { unfold Example.flipping, Example.run. cbn [fold_left].
    repeat (apply reach_step; [|exact I]). apply reach_init; lia. }
  split.
  { cbn [deliverable]. split; apply Qle_bool_iff; vm_compute; reflexivity. }
  repeat split; vm_compute; reflexivity.
Qed.

(** * Further properties of the viewer *)

(** ** The steady render *)

Section SteadyRender.

Variable fitz_open : string -> option (list fitz.Page).
Variable get_pixmap : fitz.Page -> Q -> Z * Z.

Lemma unwipe (s : Viewer) : s = set_canvas_image (canvas_image s) (wipe s).
Proof. destruct s; reflexivity. Qed.

(** What [_render] draws depends on everything but the canvas image. *)
Lemma render_frame (s : Viewer) :
  renderable s = true -> valid_index s (page_index s) = true ->
  exists img,
    map fst (Image.shows img) = pages_to_render s (page_index s)
    /\ forall s', wipe s' = wipe s ->
         _render get_pixmap s'
         = Ok tt (set_canvas_image
                    (Some ((canvas_width s - Image.width img) / 2,
                           (canvas_height s - Image.height img) / 2, img)) s).
Proof.
  intros Hr Hi.
  destruct (mapM_get_page_image_ok get_pixmap (wipe s)
              (pages_to_render s (page_index s)) Hr
              (pages_to_render_valid s _ Hi)) as (imgs & _ & Himgs & Hcat & _).
  exists (combined_of imgs). split.
  { rewrite combined_of_shows. exact Hcat. }
  intros s' Hw. rewrite (unwipe s'), Hw.
  generalize (canvas_image s'). intros c.
  unfold _render, bind, get.
  change (doc_truthy (set_canvas_image c (wipe s))) with (doc_truthy s).
  rewrite (renderable_truthy s _ Hr Hi).
  unfold _render_pages, bind, get.
  change (pages_to_render (set_canvas_image c (wipe s))
            (page_index (set_canvas_image c (wipe s))))
    with (pages_to_render s (page_index s)).
  rewrite Himgs. reflexivity.
Qed.

Lemma pages_to_render_cases (s : Viewer) (idx : Z) :
  pages_to_render s idx
  = if dual_page_mode s && (idx + 1 <? page_count s)
    then [idx; idx + 1] else [idx].
Proof.
  unfold pages_to_render. destruct (dual_page_mode s); simpl.
  - destruct (Z.leb_spec (page_count s) (idx + 1)),
             (Z.ltb_spec (idx + 1) (page_count s)); try reflexivity; lia.
  - reflexivity.
Qed.

(** X1. On a renderable state with a valid page index, [_render] succeeds;
    it draws the stored page, with its right neighbour exactly when dual
    mode is on and the neighbour exists; the image is centred in the canvas
    to within one pixel in each direction (overflowing evenly when it is
    larger); nothing but the canvas changes, and rendering again changes
    nothing. *)
Theorem render_draws_current_spread_centred (s : Viewer) :
  renderable s = true -> valid_index s (page_index s) = true ->
  exists x y img,
    _render get_pixmap s = Ok tt (set_canvas_image (Some (x, y, img)) s)
    /\ map fst (Image.shows img)
       = (if dual_page_mode s && (page_index s + 1 <? page_count s)
          then [page_index s; page_index s + 1] else [page_index s])
    /\ 2 * x <= canvas_width s - Image.width img <= 2 * x + 1
    /\ 2 * y <= canvas_height s - Image.height img <= 2 * y + 1
    /\ _render get_pixmap (set_canvas_image (Some (x, y, img)) s)
       = Ok tt (set_canvas_image (Some (x, y, img)) s).
Proof.
  intros Hr Hi. destruct (render_frame s Hr Hi) as (img & Hshows & Hrender).
  do 3 eexists. split; [apply Hrender; reflexivity|].
  split; [rewrite Hshows; apply pages_to_render_cases|].
  split.
  { pose proof (Z.div_mod (canvas_width s - Image.width img) 2 ltac:(lia)).
    pose proof (Z.mod_pos_bound (canvas_width s - Image.width img) 2 ltac:(lia)).
    lia. }
  split.
  { pose proof (Z.div_mod (canvas_height s - Image.height img) 2 ltac:(lia)).
    pose proof (Z.mod_pos_bound (canvas_height s - Image.height img) 2 ltac:(lia)).
    lia. }
  apply Hrender. reflexivity.
Qed.

(** ** Direct navigation *)

Lemma int_inject_Z (n : Z) : Py.int (inject_Z n) = n.
Proof. unfold Py.int. simpl. apply Z.quot_1_r. Qed.

Lemma valid_index_clamp (s : Viewer) (index : Z) :
  0 < page_count s ->
  valid_index s (Z.max 0 (Z.min index (page_count s - 1))) = true.
Proof.
  intros H. unfold valid_index. apply andb_true_intro.
  split; [apply Z.leb_le | apply Z.ltb_lt]; lia.
Qed.

Lemma renderable_pages_truthy (s : Viewer) :
  renderable s = true -> 0 < page_count s -> doc_truthy s = true.
Proof.
  intros Hr Hpc. destruct (renderable_inv s Hr) as (d & Hd & _ & Hn & _).
  unfold doc_truthy. rewrite Hd. apply Z.ltb_lt. lia.
Qed.

(** [_go] to page [m], from any state that agrees with [s] on the document
    and on everything [_set_page] does not overwrite. *)
Lemma go_frame (s : Viewer) (m : Z) :
  renderable s = true -> 0 <= m < page_count s ->
  let s2 := set_page_scale_value (inject_Z (m + 1)) (set_page_index m s) in
  exists x y img,
    map fst (Image.shows img) = pages_to_render s m
    /\ forall index s0 v i,
         Z.max 0 (Z.min index (page_count s - 1)) = m ->
         wipe (set_page_scale_value v (set_page_index i s0))
         = wipe (set_page_scale_value v (set_page_index i s)) ->
         _go get_pixmap index s0
         = Ok tt (set_canvas_image (Some (x, y, img)) s2).
Proof.
  intros Hr Hm s2.
  assert (Hpc : 0 < page_count s) by lia.
  assert (Hr2 : renderable s2 = true) by exact Hr.
  assert (Hi2 : valid_index s2 (page_index s2) = true).
  { unfold valid_index. apply andb_true_intro.
    split; [apply Z.leb_le | apply Z.ltb_lt]; cbn; lia. }
  destruct (render_frame s2 Hr2 Hi2) as (img & Hshows & Hrender).
  do 3 eexists. split; [exact Hshows|].
  intros index s0 v i Hclamp Hw.
  assert (Hpc0 : page_count s0 = page_count s).
  { apply (f_equal page_count) in Hw. exact Hw. }
  assert (Htruthy : doc_truthy s0 = true).
  { rewrite <- (renderable_pages_truthy s Hr Hpc).
    unfold doc_truthy, the_doc.
    apply (f_equal doc) in Hw as Hd. apply (f_equal heap) in Hw as Hh.
    cbn in Hd, Hh. rewrite Hd, Hh. reflexivity. }
  unfold _go, bind, get. rewrite Htruthy, Hpc0.
  rewrite sorted3_1_Z by lia. rewrite Hclamp.
  unfold _set_page, bind, modify, _update_page_ui, modify.
  cbn [page_index set_page_index].
  apply Hrender.
  destruct s0, s. cbn in *. injection Hw as -> -> -> -> -> -> -> -> -> -> -> -> -> -> ->.
  reflexivity.
Qed.

(** X2. With a document that has pages open, [_go] never raises, whatever
    the index: it stores the index clamped to [0, page_count - 1], moves the
    slider to that page (1-based) and draws it. Going to the same index
    again, or feeding the slider's own value back through [_on_scale],
    leaves the viewer exactly as it is. *)
Theorem go_clamps_and_is_idempotent (s : Viewer) (index : Z) :
  renderable s = true -> 0 < page_count s ->
  exists s',
    _go get_pixmap index s = Ok tt s'
    /\ page_index s' = Z.max 0 (Z.min index (page_count s - 1))
    /\ 0 <= page_index s' < page_count s'
    /\ page_scale_value s' = inject_Z (page_index s' + 1)
    /\ (exists x y img, canvas_image s' = Some (x, y, img)
          /\ map fst (Image.shows img) = pages_to_render s (page_index s'))
    /\ wipe (set_page_scale_value (page_scale_value s)
               (set_page_index (page_index s) s'))
       = wipe s
    /\ _go get_pixmap index s' = Ok tt s'
    /\ _on_scale get_pixmap (page_scale_value s') s' = Ok tt s'.
Proof.
  intros Hr Hpc.
  set (m := Z.max 0 (Z.min index (page_count s - 1))).
  destruct (go_frame s m Hr ltac:(lia)) as (x & y & img & Hshows & Hgo).
  cbv zeta in Hgo.
  eexists. split; [apply (Hgo index s 0%Q 0); reflexivity|].
  split; [reflexivity|]. split; [cbn; lia|]. split; [reflexivity|].
  split; [exists x, y, img; split; [reflexivity | exact Hshows]|].
  split; [destruct s; reflexivity|].
  split; [apply (Hgo index _ 0%Q 0); reflexivity|].
  unfold _on_scale. cbn [page_scale_value set_canvas_image set_page_scale_value].
  rewrite int_inject_Z. replace (m + 1 - 1) with m by lia.
  apply (Hgo m _ 0%Q 0); [lia | reflexivity].
Qed.

End SteadyRender.
(** ** Mode toggles *)

Section Toggles.

Variable fitz_open : string -> option (list fitz.Page).
Variable get_pixmap : fitz.Page -> Q -> Z * Z.

(** X3. On a renderable state with a valid page index, toggling the fit
    mode twice, or the dual-page mode twice, gives exactly the state a plain
    re-render gives: each toggle flips its flag and redraws, and touches
    nothing else. *)
Theorem toggles_are_involutions (s : Viewer) :
  renderable s = true -> valid_index s (page_index s) = true ->
  fit_mode (step fitz_open get_pixmap s EvFit) = negb (fit_mode s)
  /\ dual_page_mode (step fitz_open get_pixmap s EvDual)
     = negb (dual_page_mode s)
  /\ step fitz_open get_pixmap (step fitz_open get_pixmap s EvFit) EvFit
     = final (_render get_pixmap s)
  /\ step fitz_open get_pixmap (step fitz_open get_pixmap s EvDual) EvDual
     = final (_render get_pixmap s).
Proof.
  intros Hr Hi.
  destruct (render_frame get_pixmap s Hr Hi) as (img & _ & Hrender).
  rewrite (Hrender s eq_refl). cbn [final].
  assert (Hfit : exists fr,
             handle fitz_open get_pixmap EvFit s
             = Ok tt (set_canvas_image (Some fr)
                        (set_fit_mode (negb (fit_mode s)) s))).
  { destruct (render_frame get_pixmap (set_fit_mode (negb (fit_mode s)) s) Hr Hi)
      as (img1 & _ & Hrender1).
    eexists. cbn [handle]. unfold _toggle_fit, bind, modify.
    apply Hrender1. reflexivity. }
  assert (Hdual : exists fr,
             handle fitz_open get_pixmap EvDual s
             = Ok tt (set_canvas_image (Some fr)
                        (set_dual_page_mode (negb (dual_page_mode s)) s))).
  { destruct (render_frame get_pixmap
                (set_dual_page_mode (negb (dual_page_mode s)) s) Hr Hi)
      as (img1 & _ & Hrender1).
    eexists. cbn [handle]. unfold _toggle_dual_page, bind, modify.
    apply Hrender1. reflexivity. }
  destruct Hfit as (fr1 & Hfit). destruct Hdual as (fr2 & Hdual).
  unfold step. rewrite Hfit, Hdual. cbn [final].
  split; [reflexivity|]. split; [reflexivity|]. split.
  - cbn [handle]. unfold _toggle_fit, bind, modify.
    cbn [fit_mode set_canvas_image set_fit_mode].
    rewrite negb_involutive. rewrite Hrender; [reflexivity|].
    destruct s; reflexivity.
  - cbn [handle]. unfold _toggle_dual_page, bind, modify.
    cbn [dual_page_mode set_canvas_image set_dual_page_mode].
    rewrite negb_involutive. rewrite Hrender; [reflexivity|].
    destruct s; reflexivity.
Qed.

End Toggles.

Lemma toggles_are_involutions_witness :
  step Example.opener Example.pixmap
    (step Example.opener Example.pixmap Example.opened EvDual) EvDual
  = final (_render Example.pixmap Example.opened).
Proof.
  apply (toggles_are_involutions Example.opener Example.pixmap Example.opened).
  - vm_compute. reflexivity.
  - vm_compute. reflexivity.
Defined.

Lemma render_draws_current_spread_centred_witness :
  exists x y img,
    _render Example.pixmap Example.opened_dual
    = Ok tt (set_canvas_image (Some (x, y, img)) Example.opened_dual)
    /\ map fst (Image.shows img)
       = (if dual_page_mode Example.opened_dual
             && (page_index Example.opened_dual + 1
                 <? page_count Example.opened_dual)
          then [page_index Example.opened_dual;
                page_index Example.opened_dual + 1]
          else [page_index Example.opened_dual])
    /\ 2 * x <= canvas_width Example.opened_dual - Image.width img <= 2 * x + 1
    /\ 2 * y <= canvas_height Example.opened_dual - Image.height img
       <= 2 * y + 1
    /\ _render Example.pixmap
         (set_canvas_image (Some (x, y, img)) Example.opened_dual)
       = Ok tt (set_canvas_image (Some (x, y, img)) Example.opened_dual).
Proof.
  apply (render_draws_current_spread_centred Example.pixmap Example.opened_dual).
  - vm_compute. reflexivity.
  - vm_compute. reflexivity.
Defined.

Lemma go_clamps_and_is_idempotent_witness :
  exists s',
    _go Example.pixmap 42 Example.opened = Ok tt s'
    /\ page_index s' = Z.max 0 (Z.min 42 (page_count Example.opened - 1))
    /\ 0 <= page_index s' < page_count s'
    /\ page_scale_value s' = inject_Z (page_index s' + 1)
    /\ (exists x y img, canvas_image s' = Some (x, y, img)
          /\ map fst (Image.shows img)
             = pages_to_render Example.opened (page_index s'))
    /\ wipe (set_page_scale_value (page_scale_value Example.opened)
               (set_page_index (page_index Example.opened) s'))
       = wipe Example.opened
    /\ _go Example.pixmap 42 s' = Ok tt s'
    /\ _on_scale Example.pixmap (page_scale_value s') s' = Ok tt s'.
Proof.
  apply (go_clamps_and_is_idempotent Example.pixmap Example.opened 42).
  - vm_compute. reflexivity.
  - vm_compute. reflexivity.
Defined.

(** ** Animated navigation *)

Ltac unfold_handlers :=
  unfold handle, _open_dialog, _load, _go_animated, _start_flip_animation,
    _animate_flip, _render_flip_frame, read_target, _on_scale, _go, _set_page,
    _update_page_ui, _zoom_in, _zoom_out, _toggle_fit, _toggle_dual_page,
    _render, _render_pages, _display_image, _get_page_image.

Section Navigation.

Variable fitz_open : string -> option (list fitz.Page).
Variable get_pixmap : fitz.Page -> Q -> Z * Z.

Lemma go_animated_idle (s : Viewer) (index direction : Z) :
  doc_truthy s = true -> is_animating s = false ->
  _go_animated get_pixmap index direction s
  = _start_flip_animation get_pixmap (nav_target s index) direction s.
Proof.
  intros Hd Ha. unfold _go_animated, bind, get. rewrite Hd, Ha. simpl.
  unfold nav_target. destruct (dual_page_mode s); reflexivity.
Qed.

Lemma nav_target_valid (s : Viewer) (index : Z) :
  0 < page_count s ->
  0 <= nav_target s index < page_count s
  /\ (dual_page_mode s = true -> Z.even (nav_target s index) = true).
Proof.
  intros Hpc. unfold nav_target. rewrite maxZ_max, minZ_min.
  set (c := Z.max 0 (Z.min (page_count s - 1) index)).
  assert (Hc : 0 <= c < page_count s) by lia.
  destruct (dual_page_mode s).
  - pose proof (Zmod_even c) as Hmod.
    destruct (Z.eqb_spec (c mod 2) 0) as [E|E]; simpl.
    + split; [lia|]. intros _. destruct (Z.even c); [reflexivity | lia].
    + destruct (Z.even c) eqn:Hev; [lia|].
      assert (c <> 0) by (intros ->; discriminate).
      split; [lia|]. intros _.
      replace (c - 1) with (Z.pred c) by lia. rewrite Z.even_pred.
      rewrite <- Z.negb_even. rewrite Hev. reflexivity.
  - split; [exact Hc | discriminate].
Qed.

(** X4. Prev on the first page does nothing, in every state; next does
    nothing on the last page in single-page mode, and in dual-page mode on
    an even index whose spread reaches the end of the document. *)
Theorem navigation_stops_at_the_ends (s : Viewer) :
  (page_index s = 0 -> step fitz_open get_pixmap s EvLeft = s)
  /\ (dual_page_mode s = false -> 0 < page_count s ->
      page_index s = page_count s - 1 ->
      step fitz_open get_pixmap s EvRight = s)
  /\ (dual_page_mode s = true -> 0 <= page_index s < page_count s ->
      Z.even (page_index s) = true -> page_count s <= page_index s + 2 ->
      step fitz_open get_pixmap s EvRight = s).
Proof.
  assert (Hstart : forall t d,
             t = page_index s ->
             final (_start_flip_animation get_pixmap t d s) = s).
  { intros t d ->. unfold _start_flip_animation, bind, get.
    rewrite Z.eqb_refl. reflexivity. }
  assert (Hnav : forall index d,
             nav_target s index = page_index s ->
             final (_go_animated get_pixmap index d s) = s).
  { intros index d Ht. unfold _go_animated, bind, get.
    destruct (negb (doc_truthy s) || is_animating s); [reflexivity|].
    fold (nav_target s index) in Ht.
    change (final (_start_flip_animation get_pixmap
                     (if dual_page_mode s
                      then
                        let index0 :=
                          Py.maxZ 0 (Py.minZ (page_count s - 1) index) in
                        if negb (index0 mod 2 =? 0) then index0 - 1 else index0
                      else Py.maxZ 0 (Py.minZ (page_count s - 1) index))
                     d s) = s).
    apply Hstart. exact Ht. }
  assert (HL : handle fitz_open get_pixmap EvLeft s
               = _go_animated get_pixmap
                   (page_index s - (if dual_page_mode s then 2 else 1)) (-1) s)
    by reflexivity.
  assert (HR : handle fitz_open get_pixmap EvRight s
               = _go_animated get_pixmap
                   (page_index s + (if dual_page_mode s then 2 else 1)) 1 s)
    by reflexivity.
  unfold step. rewrite HL, HR.
  split; [|split].
  - intros H0. apply Hnav. unfold nav_target. rewrite maxZ_max, minZ_min, H0.
    destruct (dual_page_mode s).
    + replace (Z.max 0 (Z.min (page_count s - 1) (0 - 2))) with 0 by lia.
      reflexivity.
    + lia.
  - intros Hd Hpc Hlast. apply Hnav. unfold nav_target.
    rewrite maxZ_max, minZ_min, Hd. lia.
  - intros Hd Hi Hev Hend. apply Hnav. unfold nav_target.
    rewrite maxZ_max, minZ_min, Hd.
    replace (Z.max 0 (Z.min (page_count s - 1) (page_index s + 2)))
      with (page_count s - 1) by lia.
    pose proof (Zmod_even (page_count s - 1)) as Hmod.
    pose proof (Zmod_even (page_index s)) as Hmodi. rewrite Hev in Hmodi.
    destruct (Z.eqb_spec ((page_count s - 1) mod 2) 0) as [E|E]; simpl.
    + assert (page_index s = page_count s - 1 \/ page_index s = page_count s - 2)
        as [H|H] by lia; [lia|].
      exfalso. rewrite H in Hmodi.
      replace (page_count s - 2) with (page_count s - 1 - 1 * 1) in Hmodi by lia.
      pose proof (Z.mod_pos_bound (page_count s - 1) 2 ltac:(lia)).
      pose proof (Z.div_mod (page_count s - 1) 2 ltac:(lia)).
      pose proof (Z.div_mod (page_count s - 1 - 1 * 1) 2 ltac:(lia)).
      pose proof (Z.mod_pos_bound (page_count s - 1 - 1 * 1) 2 ltac:(lia)).
      lia.
    + assert (page_index s = page_count s - 1 \/ page_index s = page_count s - 2)
        as [H|H] by lia; [|lia].
      exfalso. rewrite H in Hmodi. lia.
Qed.

(** The tick that reaches progress 1.0, with what the user then sees. *)
Lemma animate_flip_arrival (s : Viewer) (t : Z) :
  renderable s = true -> valid_index s (page_index s) = true ->
  target_page_index s = Some t -> valid_index s t = true ->
  (1 <= animation_progress s + 0.15)%Q ->
  exists s',
    _animate_flip get_pixmap s = Ok tt s'
    /\ page_index s' = t /\ is_animating s' = false
    /\ after_pending s' = after_pending s
    /\ page_scale_value s' = inject_Z (t + 1)
    /\ exists x y img,
         canvas_image s' = Some (x, y, img)
         /\ map fst (Image.shows img) = pages_to_render s t.
Proof.
  intros Hr Hi Ht Hv Hp.
  set (s1 := set_animation_progress 1.0%Q s).
  destruct (render_flip_frame_ok get_pixmap s1 t Hr Hi Ht Hv)
    as (imgs & _ & _ & _ & Hframe).
  cbv zeta in Hframe.
  unfold _animate_flip, bind, modify. rewrite minQ_above by lra.
  fold s1. rewrite Hframe. unfold get.
  cbn [animation_progress set_canvas_image s1 set_animation_progress].
  change (Qle_bool 1.0 1.0) with true. cbv iota.
  unfold read_target, bind, get.
  cbn [target_page_index set_canvas_image s1 set_animation_progress].
  rewrite Ht. unfold ret, _update_page_ui, modify.
  match goal with
  | |- context [_render get_pixmap ?st] =>
      destruct (render_ok get_pixmap st Hr Hv) as (x & y & img & Hrender & Hshows);
      rewrite Hrender
  end.
  eexists. split; [reflexivity|].
  do 4 (split; [reflexivity|]).
  exists x, y, img. split; [reflexivity | exact Hshows].
Qed.

(** Prev, next and the timer never touch the dual-page flag. *)
Lemma navigation_keeps_dual (ev : event) (b : bool) :
  match ev with EvLeft | EvRight | EvAfter => True | _ => False end ->
  invariant (fun st => dual_page_mode st = b) (handle fitz_open get_pixmap ev).
Proof.
  destruct ev; intros []; unfold_handlers; inv_auto; intros s H; exact H.
Qed.

Lemma ticks_keep_dual (k : nat) (st : Viewer) (b : bool) :
  dual_page_mode st = b ->
  dual_page_mode (Nat.iter k (fun st => step fitz_open get_pixmap st EvAfter) st)
  = b.
Proof.
  intros H. induction k as [|k IH]; [exact H|].
  rewrite Nat.iter_succ. apply (navigation_keeps_dual EvAfter b I). exact IH.
Qed.

(** X5. From an idle, renderable state, prev or next followed by six timer
    ticks arrives: unless the request resolves to the current page, the
    stored page index becomes the requested index clamped to the document
    and, in dual-page mode, rounded down to an even index (in single-page
    mode: the neighbouring page); the slider shows it, the canvas shows its
    steady view, and the viewer is idle again. *)
Theorem animated_navigation_arrives (s : Viewer) (forward : bool) :
  renderable s = true -> valid_index s (page_index s) = true ->
  is_animating s = false -> after_pending s = 0%nat ->
  let t := nav_target s (nav_request s forward) in
  t <> page_index s ->
  let s' :=
    Nat.iter 6 (fun st => step fitz_open get_pixmap st EvAfter)
      (step fitz_open get_pixmap s (nav_event forward)) in
  page_index s' = t
  /\ 0 <= t < page_count s
  /\ (dual_page_mode s = true -> Z.even t = true)
  /\ (dual_page_mode s = false ->
      t = if forward then page_index s + 1 else page_index s - 1)
  /\ is_animating s' = false /\ after_pending s' = 0%nat
  /\ page_scale_value s' = inject_Z (t + 1)
  /\ exists x y img,
       canvas_image s' = Some (x, y, img)
       /\ map fst (Image.shows img) = pages_to_render s t.
Proof.
  intros Hr Hi Ha Hp t Hne s'.
  assert (Hpc : 0 < page_count s).
  { unfold valid_index in Hi. apply andb_prop in Hi as [H0 H1].
    apply Z.leb_le in H0. apply Z.ltb_lt in H1. lia. }
  assert (Hidx : 0 <= page_index s < page_count s).
  { unfold valid_index in Hi. apply andb_prop in Hi as [H0 H1].
    apply Z.leb_le in H0. apply Z.ltb_lt in H1. lia. }
  destruct (nav_target_valid s (nav_request s forward) Hpc) as (Hrange & Heven).
  fold t in Hrange, Heven.
  assert (Hv : valid_index s t = true).
  { unfold valid_index. apply andb_true_intro.
    split; [apply Z.leb_le | apply Z.ltb_lt]; lia. }
  set (d := if forward then 1 else (-1)).
  assert (Hstep : step fitz_open get_pixmap s (nav_event forward)
                  = final (_start_flip_animation get_pixmap t d s)).
  { unfold step, nav_event, d.
    pose proof (renderable_truthy s _ Hr Hi) as Htruthy.
    destruct forward; cbn [handle]; unfold bind at 1, get at 1;
      rewrite (go_animated_idle s _ _ Htruthy Ha); reflexivity. }
  destruct (flip_running_after fitz_open get_pixmap s t d 5 Hr Hi Hv Hne Hp (le_n 5))
    as (Hr' & Hpc' & Hpi & Ht & Ha' & Hp' & Hprog).
  rewrite <- Hstep in Hr', Hpc', Hpi, Ht, Ha', Hp', Hprog.
  subst s'. rewrite Nat.iter_succ.
  set (st := Nat.iter 5 (fun st => step fitz_open get_pixmap st EvAfter)
               (step fitz_open get_pixmap s (nav_event forward))) in *.
  assert (Hi' : valid_index st (page_index st) = true).
  { unfold valid_index. rewrite Hpi, Hpc'. exact Hi. }
  assert (Hv' : valid_index st t = true).
  { unfold valid_index. rewrite Hpc'. exact Hv. }
  destruct (animate_flip_arrival (set_after_pending 0 st) t Hr' Hi' Ht Hv')
    as (s' & Hrun & Hpi' & Ha'' & Hp'' & Hsl & x & y & img & Hc & Hshows).
  { cbn [animation_progress set_after_pending]. rewrite Hprog.
    change (inject_Z (Z.of_nat 6)) with 6%Q. lra. }
  assert (Hlast : step fitz_open get_pixmap st EvAfter = s').
  { unfold step. rewrite (handle_after fitz_open get_pixmap st 0 Hp'), Hrun.
    reflexivity. }
  rewrite Hlast.
  split; [exact Hpi'|]. split; [exact Hrange|]. split; [exact Heven|].
  split.
  { intros Hd. unfold t in *. unfold nav_target, nav_request in *.
    rewrite Hd in *. rewrite maxZ_max, minZ_min in *.
    destruct forward; lia. }
  split; [exact Ha''|]. split; [exact Hp''|]. split; [exact Hsl|].
  exists x, y, img. split; [exact Hc|].
  rewrite Hshows. unfold pages_to_render.
  change (dual_page_mode (set_after_pending 0 st)) with (dual_page_mode st).
  change (page_count (set_after_pending 0 st)) with (page_count st).
  rewrite Hpc'.
  assert (Hdual : dual_page_mode st = dual_page_mode s); [|rewrite Hdual; reflexivity].
  subst st. apply ticks_keep_dual. unfold nav_event.
  destruct forward;
    [apply (navigation_keeps_dual EvRight _ I)
    |apply (navigation_keeps_dual EvLeft _ I)]; reflexivity.
Qed.

End Navigation.
Lemma animated_navigation_arrives_witness :
  let s := Example.opened in
  let t := nav_target s (nav_request s true) in
  let s' :=
    Nat.iter 6 (fun st => step Example.opener Example.pixmap st EvAfter)
      (step Example.opener Example.pixmap s (nav_event true)) in
  page_index s' = t
  /\ 0 <= t < page_count s
  /\ (dual_page_mode s = true -> Z.even t = true)
  /\ (dual_page_mode s = false ->
      t = if true then page_index s + 1 else page_index s - 1)
  /\ is_animating s' = false /\ after_pending s' = 0%nat
  /\ page_scale_value s' = inject_Z (t + 1)
  /\ exists x y img,
       canvas_image s' = Some (x, y, img)
       /\ map fst (Image.shows img) = pages_to_render s t.
Proof.
  pose proof (animated_navigation_arrives Example.opener Example.pixmap
                Example.opened true) as H.
  cbv zeta in H |- *. apply H.
  - vm_compute. reflexivity.
  - vm_compute. reflexivity.
  - vm_compute. reflexivity.
  - vm_compute. reflexivity.
  - vm_compute. discriminate.
Defined.

(** ** More on zoom and scale *)

Lemma sorted3_1_Q_mono (lo x y hi : Q) :
  (lo <= hi)%Q -> (x <= y)%Q ->
  (Py.sorted3_1 Qle_bool lo x hi <= Py.sorted3_1 Qle_bool lo y hi)%Q.
Proof.
  intros Hlh Hxy. rewrite !sorted3_1_Q by assumption.
  destruct (Qle_bool x hi) eqn:Hx, (Qle_bool y hi) eqn:Hy,
           (Qle_bool lo x) eqn:Hlx, (Qle_bool lo y) eqn:Hly;
    repeat match goal with
           | H : Qle_bool _ _ = true |- _ => apply Qle_bool_iff in H
           | H : Qle_bool ?a ?b = false |- _ =>
               assert (b < a)%Q
                 by (destruct (Qlt_le_dec b a) as [L|L]; [exact L|];
                     apply Qle_bool_iff in L; congruence);
               clear H
           end;
    lra.
Qed.

Section ZoomAndScale.

Variable fitz_open : string -> option (list fitz.Page).
Variable get_pixmap : fitz.Page -> Q -> Z * Z.

(** X6. On every reachable state, zoom in never lowers the stored zoom and
    zoom out never raises it, and each changes it unless it is at its bound;
    6.0 is a fixed point of zoom in and 0.2 of zoom out; and when z / 1.25
    is below 0.2, zoom out stores 0.2 and zoom in after it 0.25
    (0.2 * 1.25), not z. *)
Theorem zoom_steps_are_monotone (s : Viewer) :
  reachable fitz_open get_pixmap s ->
  let z_in := zoom (step fitz_open get_pixmap s EvZoomIn) in
  let z_out := zoom (step fitz_open get_pixmap s EvZoomOut) in
  let z_back :=
    zoom (step fitz_open get_pixmap
            (step fitz_open get_pixmap s EvZoomOut) EvZoomIn) in
  (zoom s <= z_in)%Q /\ (z_out <= zoom s)%Q
  /\ (zoom s < 6.0 -> zoom s < z_in)%Q
  /\ (0.2 < zoom s -> z_out < zoom s)%Q
  /\ (zoom s == 6.0 -> z_in == 6.0)
  /\ (zoom s == 0.2 -> z_out == 0.2)
  /\ (zoom s / 1.25 < 0.2 -> z_out == 0.2 /\ z_back == 0.25)%Q.
Proof.
  intros Hreach z_in z_out z_back.
  pose proof (reachable_zoom_ok fitz_open get_pixmap s Hreach) as [Hlo Hhi].
  subst z_in z_out z_back. unfold step. cbn [handle].
  destruct (zoom_in_fields get_pixmap s) as [Hin _].
  destruct (zoom_out_fields get_pixmap s) as [Hout _].
  destruct (zoom_in_fields get_pixmap (final (_zoom_out get_pixmap s)))
    as [Hback _].
  rewrite Hback, Hin, Hout.
  assert (Hdiv : zoom s / 1.25 == zoom s * 0.8) by (field).
  assert (Hin' : Py.sorted3_1 Qle_bool 0.2%Q (zoom s * 1.25)%Q 6.0%Q
                 == Qmin (zoom s * 1.25) 6.0).
  { rewrite sorted3_1_Q_clamp by lra. apply Q.max_r.
    apply Q.min_glb; lra. }
  assert (Hout' : Py.sorted3_1 Qle_bool 0.2%Q (zoom s / 1.25)%Q 6.0%Q
                  == Qmax 0.2 (zoom s / 1.25)).
  { rewrite sorted3_1_Q_clamp by lra. apply Q.max_compat; [reflexivity|].
    apply Q.min_l. lra. }
  split.
  { rewrite Hin'. apply Q.min_glb; lra. }
  split.
  { rewrite Hout'. apply Q.max_lub; lra. }
  split.
  { intros H. rewrite Hin'. apply Q.min_glb_lt; lra. }
  split.
  { intros H. rewrite Hout'. apply Q.max_lub_lt; lra. }
  split.
  { intros H. rewrite Hin'. apply Q.min_r. lra. }
  split.
  { intros H. rewrite Hout'. apply Q.max_l. lra. }
  intros Hlt.
  { rewrite (sorted3_1_Q_below 0.2%Q (zoom s / 1.25)%Q 6.0%Q) by lra.
    split; [reflexivity|].
    rewrite sorted3_1_Q_inside; [reflexivity | |]; apply Qle_bool_iff; reflexivity. }
Qed.

(** X7. The render scale as a function of the stored zoom: with fit mode
    off it never decreases when the zoom increases, and it does not depend
    on the canvas size; with fit mode on it does not depend on the zoom. *)
Theorem resolve_scale_monotone_in_zoom (s : Viewer) (r : fitz.Rect)
    (z1 z2 : Q) (w h : Z) :
  (fit_mode s = false -> (z1 <= z2)%Q ->
   (resolve_scale (set_zoom z1 s) r <= resolve_scale (set_zoom z2 s) r)%Q)
  /\ (fit_mode s = false ->
      resolve_scale (set_canvas_width w (set_canvas_height h s)) r
      = resolve_scale s r)
  /\ (fit_mode s = true ->
      resolve_scale (set_zoom z1 s) r = resolve_scale s r).
Proof.
  unfold resolve_scale.
  cbn [fit_mode zoom canvas_width canvas_height dual_page_mode page_index
       page_count set_zoom set_canvas_width set_canvas_height].
  split; [|split].
  - intros -> Hz. simpl negb. cbv iota. apply sorted3_1_Q_mono; [lra | exact Hz].
  - intros ->. reflexivity.
  - intros ->. reflexivity.
Qed.

(** X8. Fit mode fits. For a page with positive sides, let fit be the
    smaller of availableWidth / pageWidth and availableHeight / pageHeight.
    If fit >= 0.2, the page scaled by the resolved scale is no wider and no
    taller than the available area; if fit <= 8.0, it fills the available
    width or the available height; below 0.2 the page overflows, above 8.0
    it is left smaller than the window. *)
Theorem fit_scale_fits (s : Viewer) (r : fitz.Rect) :
  fit_mode s = true ->
  (0 < fitz.width r)%Q -> (0 < fitz.height r)%Q ->
  let cw := Z.max 1 (canvas_width s - 2 * pad) in
  let ch := Z.max 1 (canvas_height s - 2 * pad) in
  let aw :=
    if dual_page_mode s && (page_index s + 1 <? page_count s)
    then cw / 2 else cw in
  let fit := Qmin (inject_Z aw / fitz.width r) (inject_Z ch / fitz.height r) in
  let sc := resolve_scale s r in
  (0.2 <= fit ->
   fitz.width r * sc <= inject_Z aw /\ fitz.height r * sc <= inject_Z ch)%Q
  /\ (fit <= 8.0 ->
      inject_Z aw <= fitz.width r * sc \/ inject_Z ch <= fitz.height r * sc)%Q.
Proof.
  intros Hfit Hw Hh cw ch aw fit sc.
  assert (Hsc : sc == Qmax 0.2 (Qmin fit 8.0)).
  { subst sc. unfold resolve_scale. rewrite !maxZ_max.
    replace (canvas_width s - pad * 2) with (canvas_width s - 2 * pad) by lia.
    replace (canvas_height s - pad * 2) with (canvas_height s - 2 * pad) by lia.
    fold cw ch aw. rewrite Hfit. simpl negb. cbv iota.
    rewrite sorted3_1_Q_clamp by lra.
    apply Q.max_compat; [reflexivity|].
    apply Q.min_compat; [|reflexivity]. apply minQ_Qmin. }
  assert (Hfw : (fit <= inject_Z aw / fitz.width r)%Q) by apply Q.le_min_l.
  assert (Hfh : (fit <= inject_Z ch / fitz.height r)%Q) by apply Q.le_min_r.
  assert (Hmulw : forall q, (q <= inject_Z aw / fitz.width r ->
                             fitz.width r * q <= inject_Z aw)%Q).
  { intros q Hq. apply (Qmult_le_l _ _ _ Hw) in Hq.
    rewrite Qmult_div_r in Hq; [exact Hq | lra]. }
  assert (Hmulh : forall q, (q <= inject_Z ch / fitz.height r ->
                             fitz.height r * q <= inject_Z ch)%Q).
  { intros q Hq. apply (Qmult_le_l _ _ _ Hh) in Hq.
    rewrite Qmult_div_r in Hq; [exact Hq | lra]. }
  split.
  - intros Hge.
    assert (Hle : (sc <= fit)%Q).
    { rewrite Hsc. apply Q.max_lub; [exact Hge | apply Q.le_min_l]. }
    split.
    + apply Hmulw. lra.
    + apply Hmulh. lra.
  - intros Hle.
    assert (Hge : (fit <= sc)%Q).
    { rewrite Hsc. rewrite (Q.min_l fit 8.0 Hle). apply Q.le_max_r. }
    destruct (Q.min_dec (inject_Z aw / fitz.width r)
                        (inject_Z ch / fitz.height r)) as [E|E];
      fold fit in E.
    + left. rewrite E in Hge. apply (Qmult_le_l _ _ _ Hw) in Hge.
      rewrite Qmult_div_r in Hge; [exact Hge | lra].
    + right. rewrite E in Hge. apply (Qmult_le_l _ _ _ Hh) in Hge.
      rewrite Qmult_div_r in Hge; [exact Hge | lra].
Qed.

End ZoomAndScale.

Lemma zoom_steps_are_monotone_witness :
  let s := Example.start in
  (zoom s < zoom (step Example.opener Example.pixmap s EvZoomIn))%Q.
Proof.
  destruct (zoom_steps_are_monotone Example.opener Example.pixmap Example.start)
    as (_ & _ & Hlt & _).
  - apply reach_init; lia.
  - apply Hlt. vm_compute. reflexivity.
Defined.

Lemma fit_scale_fits_witness :
  let s := Example.start in
  let r := fitz.rect Example.letter in
  (fitz.width r * resolve_scale s r
   <= inject_Z (Z.max 1 (canvas_width s - 2 * pad)))%Q.
Proof.
  destruct (fit_scale_fits Example.start (fitz.rect Example.letter))
    as (Hfits & _).
  - reflexivity.
  - vm_compute. reflexivity.
  - vm_compute. reflexivity.
  - apply Hfits. apply Qle_bool_iff. vm_compute. reflexivity.
Defined.
(** ** More on opening a document *)

Section MoreLoading.

Variable fitz_open : string -> option (list fitz.Page).
Variable get_pixmap : fitz.Page -> Q -> Z * Z.

Lemma set_heap_same (s : Viewer) : set_heap (heap s) s = s.
Proof. destruct s; reflexivity. Qed.

(** X9. A refused open, from any state in which the viewer is not on a
    closed document, raises DocumentOpenError and changes no attribute of
    the viewer and nothing on the canvas: the only effect is on the document
    object (closed if it has pages), and with no document open the state is
    exactly the one before the call. A cancelled file dialog does nothing at
    all. *)
Theorem load_failure_changes_no_attribute (s : Viewer) (path : string) :
  fitz_open path = None -> doc_closed s = false ->
  let s' := final (_load fitz_open get_pixmap path s) in
  raised (_load fitz_open get_pixmap path s) = Some DocumentOpenError
  /\ set_heap (heap s) s' = s
  /\ length (heap s') = length (heap s)
  /\ (doc s = None -> s' = s)
  /\ _open_dialog fitz_open get_pixmap EmptyString s = Ok tt s.
Proof.
  intros Hopen _ s'.
  assert (Hload : exists hp,
             _load fitz_open get_pixmap path s
             = Raise DocumentOpenError (set_heap hp s)
             /\ length hp = length (heap s)
             /\ (doc s = None -> hp = heap s)).
  { unfold _load, bind, get.
    destruct (doc s) as [h|] eqn:Hdoc.
    - destruct (the_doc s) as [d|] eqn:Hthe.
      + destruct (doc_truthy s).
        * exists (<[h := fitz.close d]> (heap s)).
          unfold modify. rewrite Hopen. split; [reflexivity|].
          split; [apply length_insert | discriminate].
        * exists (heap s). unfold ret. rewrite Hopen, set_heap_same.
          split; [reflexivity|]. split; [reflexivity | discriminate].
      + exists (heap s). unfold ret. rewrite Hopen, set_heap_same.
        split; [reflexivity|]. split; [reflexivity | discriminate].
    - exists (heap s). unfold ret. rewrite Hopen, set_heap_same.
      split; [reflexivity|]. split; reflexivity. }
  destruct Hload as (hp & Hload & Hlen & Hnone).
  subst s'. rewrite Hload. cbn [final raised].
  split; [reflexivity|]. split; [destruct s; reflexivity|].
  split; [exact Hlen|]. split; [|reflexivity].
  intros Hd. rewrite (Hnone Hd). apply set_heap_same.
Qed.

(** X10. Opening a document that has pages, none with a zero side, from a
    state in which the viewer is not on a closed document, does not raise:
    the viewer is on the new document with the slider running
    from 1 to the page count and standing at 1, and the canvas shows page 0,
    with page 1 beside it when dual-page mode is on and the document has a
    second page. The state is renderable with a valid page index. *)
Theorem load_renders_first_page (s : Viewer) (path : string)
    (pgs : list fitz.Page) :
  fitz_open path = Some pgs -> pgs <> [] -> forallb page_ok pgs = true ->
  doc_closed s = false ->
  exists s',
    _load fitz_open get_pixmap path s = Ok tt s'
    /\ renderable s' = true /\ valid_index s' (page_index s') = true
    /\ page_count s' = Z.of_nat (length pgs)
    /\ filepath s' = Some path
    /\ page_scale_to s' = Z.of_nat (length pgs)
    /\ page_scale_value s' = 1.0%Q
    /\ exists x y img,
         canvas_image s' = Some (x, y, img)
         /\ map fst (Image.shows img)
            = if dual_page_mode s && (1 <? Z.of_nat (length pgs))
              then [0; 1] else [0].
Proof.
  intros Hopen Hne Hok _.
  assert (Hlen : 0 < Z.of_nat (length pgs)).
  { destruct pgs; [contradiction | simpl; lia]. }
  assert (Hload : exists hp,
             _load fitz_open get_pixmap path s
             = _render get_pixmap
                 (set_page_scale_value 1.0%Q
                    (set_page_scale_to (Z.of_nat (length pgs))
                       (set_fit_mode true
                          (set_zoom 1.0%Q
                             (set_page_index 0
                                (set_page_count (Z.of_nat (length pgs))
                                   (set_filepath (Some path)
                                      (set_doc (Some (length hp))
                                         (set_heap
                                            (hp ++ [fitz.mkDocument pgs false])
                                            s)))))))))).
  { assert (Hclosing : exists hp,
               (match doc s, the_doc s with
                | Some h, Some d =>
                    if doc_truthy s
                    then modify (set_heap (<[h := fitz.close d]> (heap s)))
                    else ret tt
                | _, _ => ret tt
                end) s = Ok tt (set_heap hp s)).
    { destruct (doc s) as [h|]; [|exists (heap s); unfold ret; rewrite set_heap_same; reflexivity].
      destruct (the_doc s) as [d|]; [|exists (heap s); unfold ret; rewrite set_heap_same; reflexivity].
      destruct (doc_truthy s); [eexists; reflexivity|].
      exists (heap s). unfold ret. rewrite set_heap_same. reflexivity. }
    destruct Hclosing as (hp & Hcl). exists hp.
    unfold _load, bind, get. rewrite Hcl, Hopen. unfold modify.
    cbn [page_count set_fit_mode set_zoom set_page_index set_page_count heap
         set_heap].
    unfold fitz.len. cbn [fitz.pages]. rewrite maxZ_max.
    replace (Z.max 1 (Z.of_nat (length pgs))) with (Z.of_nat (length pgs)) by lia.
    reflexivity. }
  destruct Hload as (hp & Hload). rewrite Hload.
  match goal with
  | |- context [_render get_pixmap ?st] => set (st0 := st)
  end.
  assert (Hthe : the_doc st0 = Some (fitz.mkDocument pgs false)).
  { unfold the_doc. cbn. apply list_lookup_middle. reflexivity. }
  assert (Hr : renderable st0 = true).
  { unfold renderable. rewrite Hthe. cbn [fitz.is_closed fitz.pages negb].
    rewrite Hok. unfold fitz.len. cbn. rewrite Z.eqb_refl. reflexivity. }
  assert (Hi : valid_index st0 (page_index st0) = true).
  { unfold valid_index. cbn. apply Z.ltb_lt. exact Hlen. }
  destruct (render_frame get_pixmap st0 Hr Hi) as (img & Hshows & Hrender).
  rewrite (Hrender st0 eq_refl).
  eexists. split; [reflexivity|].
  split; [exact Hr|]. split; [exact Hi|].
  do 4 (split; [reflexivity|]).
  do 3 eexists. split; [reflexivity|].
  rewrite Hshows, pages_to_render_cases. reflexivity.
Qed.

End MoreLoading.

Lemma load_failure_changes_no_attribute_witness :
  let s := Example.start in
  final (_load Example.opener Example.pixmap "missing.pdf" s) = s.
Proof.
  destruct (load_failure_changes_no_attribute Example.opener Example.pixmap
              Example.start "missing.pdf") as (_ & _ & _ & Hsame & _).
  - reflexivity.
  - reflexivity.
  - apply Hsame. reflexivity.
Defined.

Lemma load_renders_first_page_witness :
  exists s',
    _load Example.opener Example.pixmap "ten.pdf" Example.start = Ok tt s'
    /\ renderable s' = true /\ valid_index s' (page_index s') = true.
Proof.
  destruct (load_renders_first_page Example.opener Example.pixmap
              Example.start "ten.pdf" (repeat Example.letter 10))
    as (s' & Hload & Hr & Hi & _).
  - reflexivity.
  - discriminate.
  - reflexivity.
  - reflexivity.
  - exists s'. split; [exact Hload|]. split; [exact Hr | exact Hi].
Defined.
(** ** Session invariants *)

Lemma wp_final {A} (c : M A) (Q : Viewer -> Prop) (s : Viewer) :
  wp c (fun _ => Q) Q s -> Q (final (c s)).
Proof. unfold wp. destruct (c s); intros H; exact H. Qed.

Lemma wp_ret {A} (a : A) Q E (s : Viewer) : Q a s -> wp (ret a) Q E s.
Proof. intros H. exact H. Qed.

Lemma wp_get Q E (s : Viewer) : Q s s -> wp get Q E s.
Proof. intros H. exact H. Qed.

Lemma wp_modify (f : Viewer -> Viewer) Q E (s : Viewer) :
  Q tt (f s) -> wp (modify f) Q E s.
Proof. intros H. exact H. Qed.

Lemma wp_raise {A} (e : exn) (Q : A -> Viewer -> Prop) E (s : Viewer) :
  E s -> wp (raise e) Q E s.
Proof. intros H. exact H. Qed.

Lemma wp_bind {A B} (c : M A) (k : A -> M B) Q E (s : Viewer) :
  wp c (fun a s' => wp (k a) Q E s') E s -> wp (bind c k) Q E s.
Proof. unfold wp, bind. destruct (c s); intros H; exact H. Qed.

Section Outcomes.

Variable get_pixmap : fitz.Page -> Q -> Z * Z.

(** Rasterising a page never changes the viewer. *)
Lemma get_page_image_state (i : Z) (s : Viewer) :
  wp (_get_page_image get_pixmap i) (fun _ s' => s' = s) (fun s' => s' = s) s.
Proof.
  unfold wp, _get_page_image, bind, get.
  destruct (the_doc s); [|reflexivity].
  destruct (fitz.load_page _ _); [|reflexivity].
  cbv zeta. destruct (_ || _); [reflexivity|].
  destruct (get_pixmap _ _). reflexivity.
Qed.

Lemma mapM_get_page_image_state (l : list Z) (s : Viewer) :
  wp (mapM (_get_page_image get_pixmap) l)
     (fun _ s' => s' = s) (fun s' => s' = s) s.
Proof.
  induction l as [|i l IH]; [reflexivity|].
  simpl. apply wp_bind.
  pose proof (get_page_image_state i s) as Hi. unfold wp in *.
  destruct (_get_page_image get_pixmap i s) as [img s1|e s1]; [|exact Hi].
  subst s1. unfold bind.
  destruct (mapM (_get_page_image get_pixmap) l s) as [imgs s2|e s2];
    [|exact IH].
  subst s2. reflexivity.
Qed.

(** [_render] returns with the state as it was or with a new canvas image,
    or raises with the state as it was. *)
Lemma wp_render Q E (s : Viewer) :
  Q tt s -> (forall c, Q tt (set_canvas_image c s)) -> E s ->
  wp (_render get_pixmap) Q E s.
Proof.
  intros Hq Hqc He. unfold wp, _render, bind, get.
  destruct (doc_truthy s); [|exact Hq].
  unfold _render_pages, bind, get.
  pose proof (mapM_get_page_image_state (pages_to_render s (page_index s)) s)
    as Hm.
  unfold wp in Hm.
  destruct (mapM _ _ s) as [imgs s1|e s1]; subst s1; [|exact He].
  apply Hqc.
Qed.

(** [_render_flip_frame] returns or raises with nothing but the canvas
    image changed. *)
Lemma wp_render_flip_frame Q E (s : Viewer) :
  (forall c, Q tt (set_canvas_image c s)) ->
  (forall c, E (set_canvas_image c s)) ->
  wp (_render_flip_frame get_pixmap) Q E s.
Proof.
  intros Hq He. unfold wp, _render_flip_frame, bind, modify, get.
  assert (Hm : forall l,
             wp (mapM (_get_page_image get_pixmap) l)
               (fun _ s' => s' = set_canvas_image None s)
               (fun s' => s' = set_canvas_image None s)
               (set_canvas_image None s))
    by (intros l; apply mapM_get_page_image_state).
  unfold wp in Hm.
  destruct (Qlt_le_dec _ _).
  - unfold ret.
    match goal with
    | |- context [mapM _ ?l _] => specialize (Hm l)
    end.
    destruct (mapM _ _ _) as [imgs s1|e s1]; subst s1; [apply Hq | apply He].
  - unfold read_target, bind, get.
    destruct (target_page_index (set_canvas_image None s)) as [t|];
      [|apply He].
    unfold ret.
    match goal with
    | |- context [mapM _ ?l _] => specialize (Hm l)
    end.
    destruct (mapM _ _ _) as [imgs s1|e s1]; subst s1; [apply Hq | apply He].
Qed.

End Outcomes.

(** One step of symbolic execution of a handler. *)
Ltac wp_step :=
  lazymatch goal with
  | |- wp (bind _ _) _ _ _ => apply wp_bind
  | |- wp (ret _) _ _ _ => apply wp_ret
  | |- wp get _ _ _ => apply wp_get
  | |- wp (modify _) _ _ _ => apply wp_modify
  | |- wp (raise _) _ _ _ => apply wp_raise
  | |- wp (_render _) _ _ _ => apply wp_render; [ | intros ? | ]
  | |- wp (_render_flip_frame _) _ _ _ =>
      apply wp_render_flip_frame; intros ?
  | |- wp (match ?x with _ => _ end) _ _ _ => destruct x eqn:?
  | |- wp (let _ := _ in _) _ _ _ => cbv zeta
  | |- wp (_ _) _ _ _ => progress cbv beta
  end.

Ltac wp_run := repeat (wp_step; cbv beta).

Ltac unfold_events :=
  unfold handle, _open_dialog, _load, _go_animated, _start_flip_animation,
    _animate_flip, read_target, _on_scale, _go, _set_page,
    _update_page_ui, _zoom_in, _zoom_out, _toggle_fit, _toggle_dual_page.

Section SessionInvariants.

Variable fitz_open : string -> option (list fitz.Page).
Variable get_pixmap : fitz.Page -> Q -> Z * Z.

Lemma step_progress_ok (s : Viewer) (ev : event) :
  progress_ok s -> progress_ok (step fitz_open get_pixmap s ev).
Proof.
  intros H. unfold step. apply wp_final.
  destruct ev; unfold_events; wp_run; try exact H.
  all: unfold progress_ok in *;
    cbn [animation_progress set_canvas_image set_page_scale_value
         set_is_animating set_page_index set_animation_progress
         set_after_pending set_target_page_index set_animation_direction
         set_heap set_doc set_filepath set_page_count set_zoom set_fit_mode
         set_page_scale_to set_dual_page_mode set_canvas_width
         set_canvas_height] in *;
    try exact H;
    try (unfold Py.minQ; destruct (Qlt_le_dec _ _); lra);
    try lra.
Qed.

(** X11. In every reachable state the flip progress lies in [0, 1]. *)
Theorem progress_stays_a_fraction (s : Viewer) :
  reachable fitz_open get_pixmap s -> (0 <= animation_progress s <= 1)%Q.
Proof.
  induction 1 as [cw ch _ _ | s ev _ IH _].
  - simpl. lra.
  - apply step_progress_ok. exact IH.
Qed.

Ltac simpl_fields :=
  cbn [heap doc page_count page_index zoom fit_mode dual_page_mode filepath
       is_animating animation_direction animation_progress target_page_index
       page_scale_to page_scale_value canvas_width canvas_height canvas_image
       after_pending
       set_heap set_doc set_page_count set_page_index set_zoom set_fit_mode
       set_dual_page_mode set_filepath set_is_animating
       set_animation_direction set_animation_progress set_target_page_index
       set_page_scale_to set_page_scale_value set_canvas_width
       set_canvas_height set_canvas_image set_after_pending] in *.

Lemma step_timer_ok (s : Viewer) (ev : event) :
  timer_ok s -> timer_ok (step fitz_open get_pixmap s ev).
Proof.
  intros H. unfold step. apply wp_final.
  destruct ev; unfold_events; wp_run; try exact H.
  all: unfold timer_ok in *; simpl_fields; try exact H.
  all: repeat match goal with
         | E : (_ || _) = false |- _ => apply orb_false_elim in E as [? ?]
         end.
  all: destruct H as [Hle Himp].
  all: repeat match goal with
         | E : after_pending _ = _ |- _ => rewrite E in *
         end.
  all: try (destruct (after_pending s) as [|[|n']]; simpl in *).
  all: solve [intuition (try lia; try congruence)].
Qed.

(** X12. In every reachable state at most one [after] callback is pending,
    and one is pending only while [is_animating] is set: flips never
    overlap and no timer outlives its flip. *)
Theorem at_most_one_tick_pending (s : Viewer) :
  reachable fitz_open get_pixmap s ->
  (after_pending s <= 1)%nat
  /\ (after_pending s = 1%nat -> is_animating s = true).
Proof.
  induction 1 as [cw ch _ _ | s ev _ IH _].
  - simpl. split; [lia | discriminate].
  - apply step_timer_ok. exact IH.
Qed.

Lemma doc_ok_truthy (s : Viewer) :
  doc_ok s -> doc_truthy s = true -> 0 < page_count s.
Proof.
  intros (Hdoc & _) Ht. unfold doc_truthy, the_doc in Ht.
  destruct (doc s) as [h|]; [|discriminate].
  destruct Hdoc as (d & Hd & Hpc). rewrite Hd in Ht.
  apply Z.ltb_lt in Ht. lia.
Qed.

Lemma nav_target_nonneg (s : Viewer) (index : Z) : 0 <= nav_target s index.
Proof.
  unfold nav_target. rewrite maxZ_max, minZ_min.
  set (c := Z.max 0 (Z.min (page_count s - 1) index)).
  assert (0 <= c) by lia.
  destruct (dual_page_mode s); [|assumption].
  destruct (Z.eqb_spec (c mod 2) 0) as [E|E]; simpl; [assumption|].
  assert (c <> 0) by (intros ->; apply E; reflexivity). lia.
Qed.

Ltac doc_fin :=
  repeat match goal with
    | |- _ /\ _ => split
    | |- exists d, (_ ++ [?D]) !! _ = Some d /\ _ =>
        exists D; split; [apply list_lookup_middle; reflexivity | reflexivity]
    | |- Py.maxZ _ _ = _ => apply maxZ_max
    | |- 0 <= 0 => lia
    | |- 0 <= nav_target _ _ => apply nav_target_nonneg
    | |- forall t, Some _ = Some t -> _ => intros ? [= <-]
    | |- forall t, _ -> _ => assumption
    | |- _ => assumption
    end.

Lemma step_doc_ok (s : Viewer) (ev : event) :
  doc_ok s -> doc_ok (step fitz_open get_pixmap s ev).
Proof.
  intros H. unfold step. apply wp_final.
  destruct ev; unfold_events; wp_run; try exact H.
  all: repeat match goal with
         | E : (_ || _) = false |- _ => apply orb_false_elim in E as [? ?]
         | E : negb _ = false |- _ => apply negb_false_iff in E
         end.
  all: try match goal with
         | E : doc_truthy ?x = true |- _ =>
             pose proof (doc_ok_truthy x H E) as Hpos
         end.
  all: try match goal with
         | |- context [if dual_page_mode ?x then _ else _] =>
             fold (nav_target x
                     (page_index x - (if dual_page_mode x then 2 else 1))) in *;
             fold (nav_target x
                     (page_index x + (if dual_page_mode x then 2 else 1))) in *
         end.
  all: unfold doc_ok in *; simpl_fields; try exact H.
  all: destruct H as (Hdoc & Hto & Hpi & Htg).
  all: doc_fin.
  all: try (rewrite sorted3_1_Z by lia; lia).
  all: try match goal with
         | E : Some _ = Some ?z |- 0 <= ?z =>
             injection E as <-; apply nav_target_nonneg
         | E : target_page_index _ = Some ?z |- 0 <= ?z => apply (Htg _ E)
         end.
  rewrite Heqo in *. destruct Hdoc as (d' & Hd' & Hpc).
  unfold the_doc in Heqo0. rewrite Heqo, Hd' in Heqo0. injection Heqo0 as ->.
  exists (fitz.close d). split; [|exact Hpc].
  apply list_lookup_insert_eq. eapply lookup_lt_Some. exact Hd'.
Qed.

(** X13. In every reachable state [page_count] is the length of the
    document [self.doc] refers to (0 when there is none), the slider runs
    up to max(1, page_count), and the stored page index is not negative. *)
Theorem page_count_matches_document (s : Viewer) :
  reachable fitz_open get_pixmap s ->
  page_count s = match the_doc s with
                 | Some d => fitz.len d
                 | None => 0
                 end
  /\ (doc s = None <-> the_doc s = None)
  /\ page_scale_to s = Z.max 1 (page_count s)
  /\ 0 <= page_index s.
Proof.
  intros Hreach.
  assert (H : doc_ok s).
  { induction Hreach as [cw ch _ _ | s ev _ IH _].
    - unfold doc_ok. simpl. repeat split; [lia | discriminate].
    - apply step_doc_ok. exact IH. }
  destruct H as (Hdoc & Hto & Hpi & _). unfold the_doc.
  destruct (doc s) as [h|].
  - destruct Hdoc as (d & Hd & Hpc). rewrite Hd.
    repeat split; try assumption; discriminate.
  - repeat split; assumption.
Qed.


Lemma nav_target_below (s : Viewer) (index : Z) :
  0 < page_count s -> nav_target s index < page_count s.
Proof.
  intros Hpc. unfold nav_target. rewrite maxZ_max, minZ_min.
  set (c := Z.max 0 (Z.min (page_count s - 1) index)).
  assert (0 <= c < page_count s) by lia.
  destruct (dual_page_mode s); [|lia].
  destruct (negb (c mod 2 =? 0)); lia.
Qed.

Lemma step_index_ok (s : Viewer) (ev : event) :
  doc_ok s -> timer_ok s -> index_ok s ->
  (is_open ev = true -> is_animating s = false) ->
  index_ok (step fitz_open get_pixmap s ev).
Proof.
  intros Hd Ht H Hcalm. unfold step. apply wp_final.
  destruct ev; unfold_events; wp_run; try exact H.
  all: repeat match goal with
         | E : (_ || _) = false |- _ => apply orb_false_elim in E as [? ?]
         | E : negb _ = false |- _ => apply negb_false_iff in E
         end.
  all: try match goal with
         | E : doc_truthy ?x = true |- _ =>
             pose proof (doc_ok_truthy x Hd E) as Hpos
         end.
  all: try match goal with
         | |- context [if dual_page_mode ?x then _ else _] =>
             fold (nav_target x
                     (page_index x - (if dual_page_mode x then 2 else 1))) in *;
             fold (nav_target x
                     (page_index x + (if dual_page_mode x then 2 else 1))) in *
         end.
  all: try specialize (Hcalm eq_refl).
  all: unfold index_ok, timer_ok in *; simpl_fields; try exact H.
  all: destruct H as (Hpi & Htg); destruct Ht as (Hle & Himp).
  all: try match goal with
         | E : after_pending _ = S _ |- _ =>
             rewrite E in Hle, Himp;
             assert (Hanim : is_animating s = true) by (apply Himp; lia)
         end.
  all: split; [| intros Ha t Et].
  all: try discriminate.
  all: try congruence.
  all: try lia.
  all: try exact Hpi.
  all: try (rewrite sorted3_1_Z by lia; lia).
  all: try match goal with
         | E : Some (nav_target _ _) = Some ?z |- ?z < _ =>
             injection E as <-;
             pose proof (nav_target_below s) as Hb;
             match goal with
             | |- nav_target _ ?i < _ => specialize (Hb i Hpos)
             end; lia
         | E : target_page_index _ = Some ?z |- ?z < _ =>
             first [ apply (Htg Hanim _ E) | apply (Htg Ha _ E) ]
         end.
Qed.

(** X14. As long as no document is opened while a flip is running, the
    stored page index is always a page of the open document, 0 <= index <
    max(1, page_count), and so is the target of a running flip: neither the
    slider, nor prev and next, nor a completing flip can leave the
    document. *)
Theorem page_index_stays_in_document (s : Viewer) :
  calm_reachable fitz_open get_pixmap s ->
  0 <= page_index s < Z.max 1 (page_count s)
  /\ (0 < page_count s -> valid_index s (page_index s) = true)
  /\ (is_animating s = true ->
      forall t, target_page_index s = Some t ->
                0 <= t < Z.max 1 (page_count s)).
Proof.
  intros Hreach.
  assert (H : doc_ok s /\ timer_ok s /\ index_ok s).
  { induction Hreach as [cw ch _ _ | s ev _ IH _ Hcalm].
    - unfold doc_ok, timer_ok, index_ok. simpl.
      repeat split; try lia; try discriminate.
    - destruct IH as (Hd & Ht & Hi).
      split; [apply step_doc_ok; exact Hd|].
      split; [apply step_timer_ok; exact Ht|].
      apply step_index_ok; assumption. }
  destruct H as ((_ & _ & Hpi & Htg) & _ & (Hlt & Htlt)).
  split; [lia|]. split.
  - intros Hpc. unfold valid_index. apply andb_true_intro.
    split; [apply Z.leb_le | apply Z.ltb_lt]; lia.
  - intros Ha t Et. split; [apply (Htg t Et) | apply (Htlt Ha t Et)].
Qed.

End SessionInvariants.

Lemma progress_stays_a_fraction_witness :
  (0 <= animation_progress Example.flipping <= 1)%Q.
Proof.
  apply (progress_stays_a_fraction Example.opener Example.pixmap).
  unfold Example.flipping, Example.run. cbn [fold_left].
  repeat (apply reach_step; [|exact I]). apply reach_init; lia.
Defined.

Lemma at_most_one_tick_pending_witness :
  (after_pending Example.flipping <= 1)%nat
  /\ (after_pending Example.flipping = 1%nat ->
      is_animating Example.flipping = true).
Proof.
  apply (at_most_one_tick_pending Example.opener Example.pixmap).
  unfold Example.flipping, Example.run. cbn [fold_left].
  repeat (apply reach_step; [|exact I]). apply reach_init; lia.
Defined.

Lemma page_count_matches_document_witness :
  page_scale_to Example.opened = Z.max 1 (page_count Example.opened)
  /\ 0 <= page_index Example.opened.
Proof.
  destruct (page_count_matches_document Example.opener Example.pixmap
              Example.opened) as (_ & _ & Hto & Hpi).
  - unfold Example.opened, Example.run. cbn [fold_left].
    repeat (apply reach_step; [|exact I]). apply reach_init; lia.
  - split; [exact Hto | exact Hpi].
Defined.

Lemma page_index_stays_in_document_witness :
  0 <= page_index Example.flipping
       < Z.max 1 (page_count Example.flipping).
Proof.
  destruct (page_index_stays_in_document Example.opener Example.pixmap
              Example.flipping) as (H & _); [|exact H].
  unfold Example.flipping, Example.run. cbn [fold_left].
  apply calm_step.
  - apply calm_step.
    + apply calm_init; lia.
    + exact I.
    + intros _. reflexivity.
  - exact I.
  - discriminate.
Defined.
(** ** The status label, the composition and the mouse wheel *)

(** X15. The page label always names the pages that [_render_pages] draws:
    the 1-based number of the page drawn, or of the first and the last page
    drawn, separated by a hyphen when a spread is drawn, followed by a slash
    and the page count. (In particular the min(i + 2, page_count) of the
    label never differs from i + 2.) *)
Theorem status_label_names_the_drawn_pages (s : Viewer) :
  _update_status s
  = (match pages_to_render s (page_index s) with
     | [a] => py_str (a + 1)
     | a :: b :: _ => py_str (a + 1) ++ "-" ++ py_str (b + 1)
     | [] => EmptyString
     end ++ "/" ++ py_str (page_count s))%string.
Proof.
  unfold _update_status, page_display. rewrite pages_to_render_cases.
  destruct (dual_page_mode s); simpl andb; [|reflexivity].
  destruct (Z.ltb_spec (page_index s + 1) (page_count s)); [|reflexivity].
  rewrite minZ_min.
  replace (Z.min (page_index s + 2) (page_count s))
    with (page_index s + 1 + 1) by lia.
  reflexivity.
Qed.

Lemma foldl_maxZ_max (hs : list Z) (h : Z) :
  (h <= foldl Py.maxZ h hs)
  /\ (forall x, In x hs -> x <= foldl Py.maxZ h hs)
  /\ (foldl Py.maxZ h hs = h \/ In (foldl Py.maxZ h hs) hs).
Proof.
  revert h. induction hs as [|a hs IH]; intros h; simpl.
  - split; [lia|]. split; [intros x []|]. left. reflexivity.
  - destruct (IH (Py.maxZ h a)) as (H1 & H2 & H3). rewrite maxZ_max in *.
    split; [lia|]. split.
    + intros x [<-|Hx]; [lia | apply H2; exact Hx].
    + destruct H3 as [H3|H3].
      * rewrite H3. destruct (Z.max_spec h a) as [[_ ->]|[_ ->]]; auto.
      * right. right. exact H3.
Qed.

(** X16. The image [_combine_images_horizontal] makes of a non-empty list
    of images is as wide as the images together plus one gap of 12 pixels,
    and exactly as tall as the tallest of them; it depicts their pages in
    order. For two images this is width a + width b + 12 and max(height a,
    height b). *)
Theorem combine_is_as_wide_as_all_and_as_tall_as_the_tallest
    (images : list Image.t) :
  images <> [] ->
  let c := _combine_images_horizontal images in
  Image.width c = foldr Z.add 0 (map Image.width images) + 12
  /\ (forall img, In img images -> Image.height img <= Image.height c)
  /\ (exists img, In img images /\ Image.height c = Image.height img)
  /\ Image.shows c = concat (map Image.shows images)
  /\ (forall a b, images = [a; b] ->
        Image.width c = Image.width a + Image.width b + 12
        /\ Image.height c = Z.max (Image.height a) (Image.height b)).
Proof.
  intros Hne c. destruct images as [|i0 rest]; [contradiction|].
  subst c. unfold _combine_images_horizontal, pad.
  cbn [Image.width Image.height Image.shows map].
  destruct (foldl_maxZ_max (map Image.height rest) (Image.height i0))
    as (H1 & H2 & H3).
  split; [reflexivity|]. split.
  { intros img [<-|Hin]; [exact H1|]. apply H2. apply in_map. exact Hin. }
  split.
  { destruct H3 as [H3|H3].
    - exists i0. split; [left; reflexivity | exact H3].
    - apply in_map_iff in H3 as (img & Himg & Hin).
      exists img. split; [right; exact Hin | symmetry; exact Himg]. }
  split; [reflexivity|].
  intros a b [= -> ->]. simpl. rewrite maxZ_max. split; [lia | reflexivity].
Qed.

Lemma paste_offsets_lookup (images : list Image.t) (x0 : Z) (k : nat) (x : Z) :
  paste_offsets x0 images !! k = Some x ->
  x = x0 + foldr Z.add 0 (map Image.width (take k images)) + Z.of_nat k * pad.
Proof.
  revert x0 k. induction images as [|img rest IH]; intros x0 k; simpl.
  - destruct k; discriminate.
  - destruct k as [|k]; simpl.
    + intros [= <-]. lia.
    + intros H. apply IH in H. rewrite H. lia.
Qed.

(** X17. The paste loop of [_combine_images_horizontal] puts the k-th image
    at the summed widths of the images before it plus k gaps, so images of
    non-negative width never overlap; for the two images of a spread the
    left one starts at 0 and the right one at width a + 12, and the right one
    ends exactly at the right edge of the combined image. *)
Theorem paste_puts_images_side_by_side (images : list Image.t) :
  length (paste_offsets 0 images) = length images
  /\ (forall k x,
        paste_offsets 0 images !! k = Some x ->
        x = foldr Z.add 0 (map Image.width (take k images))
            + Z.of_nat k * 12)
  /\ (forall k x a y,
        paste_offsets 0 images !! k = Some x -> images !! k = Some a ->
        paste_offsets 0 images !! S k = Some y ->
        y = x + Image.width a + 12)
  /\ (forall a b, images = [a; b] ->
        paste_offsets 0 images = [0; Image.width a + 12]
        /\ Image.width a + 12 + Image.width b
           = Image.width (_combine_images_horizontal images)).
Proof.
  split; [|split; [|split]].
  - generalize 0. induction images as [|img rest IH]; intros x0; simpl;
      [reflexivity | rewrite IH; reflexivity].
  - intros k x H. apply paste_offsets_lookup in H. unfold pad in H. lia.
  - generalize 0. induction images as [|img rest IH]; intros x0 k x a y; simpl.
    + destruct k; discriminate.
    + destruct k as [|k]; simpl.
      * intros [= <-] [= <-]. destruct rest; simpl; [discriminate|].
        intros [= <-]. unfold pad. lia.
      * intros Hx Ha Hy. apply (IH _ _ _ _ _ Hx Ha Hy).
  - intros a b ->. unfold _combine_images_horizontal, pad. simpl.
    split; [reflexivity | lia].
Qed.

(** X18. The wheel binding scrolls one unit down for a Button-5 press or a
    negative delta and one unit up for a Button-4 press or a positive
    delta, which covers every event Tk delivers to it (a button press has
    delta 0, a wheel event has no button number); it never issues two
    scrolls in the same direction. An event that is both a down and an up
    event scrolls down and then up, because [yview_scroll] returns [None]
    and the right operand of [or] is evaluated all the same. *)
Theorem mousewheel_scrolls_one_unit (num : option Z) (delta : Z) :
  _on_mousewheel (Some 5) 0 = [1]
  /\ _on_mousewheel (Some 4) 0 = [-1]
  /\ (delta < 0 -> _on_mousewheel None delta = [1])
  /\ (0 < delta -> _on_mousewheel None delta = [-1])
  /\ _on_mousewheel None 0 = []
  /\ (_on_mousewheel num delta = []
      \/ _on_mousewheel num delta = [1]
      \/ _on_mousewheel num delta = [-1]
      \/ (_on_mousewheel num delta = [1; -1]
          /\ ((num = Some 5 /\ 0 < delta) \/ (num = Some 4 /\ delta < 0)))).
Proof.
  split; [reflexivity|]. split; [reflexivity|].
  split.
  { intros H. unfold _on_mousewheel. simpl.
    destruct (Z.ltb_spec delta 0), (Z.ltb_spec 0 delta); try lia. reflexivity. }
  split.
  { intros H. unfold _on_mousewheel. simpl.
    destruct (Z.ltb_spec delta 0), (Z.ltb_spec 0 delta); try lia. reflexivity. }
  split; [reflexivity|].
  unfold _on_mousewheel.
  destruct num as [m|]; simpl.
  - destruct (Z.eqb_spec m 5), (Z.eqb_spec m 4), (Z.ltb_spec delta 0),
             (Z.ltb_spec 0 delta); subst; simpl; try lia; auto.
    + right. right. right. split; [reflexivity|]. left. split; [reflexivity | lia].
    + right. right. right. split; [reflexivity|]. right. split; [reflexivity | lia].
  - destruct (Z.ltb_spec delta 0), (Z.ltb_spec 0 delta); simpl; try lia; auto.
Qed.

Lemma combine_is_as_wide_as_all_and_as_tall_as_the_tallest_witness :
  let a := Image.mk 523 676 [(0, 1%Q)] in
  let b := Image.mk 400 700 [(1, 1%Q)] in
  Image.width (_combine_images_horizontal [a; b]) = 523 + 400 + 12
  /\ Image.height (_combine_images_horizontal [a; b]) = Z.max 676 700.
Proof.
  intros a b.
  destruct (combine_is_as_wide_as_all_and_as_tall_as_the_tallest [a; b])
    as (_ & _ & _ & _ & Htwo).
  - discriminate.
  - apply (Htwo a b). reflexivity.
Defined.
(** ** The frames of a flip *)

Lemma int_opp (x : Q) : Py.int (- x) = - Py.int x.
Proof.
  destruct x as [n d]. unfold Py.int. simpl. apply Z.quot_opp_l. discriminate.
Qed.

(** A scale between 0 and 1 never widens: the frame is at least one pixel
    wide and no wider than the image (or than one pixel). *)
Lemma flip_new_width_narrow (combined : Image.t) (sc : Q) :
  (0 <= sc <= 1)%Q ->
  1 <= flip_new_width combined sc <= Z.max 1 (Image.width combined).
Proof.
  intros [H0 H1]. unfold flip_new_width. rewrite maxZ_max.
  split; [lia|].
  destruct (Z.le_gt_cases 0 (Image.width combined)) as [Hw|Hw].
  - assert (Hq : (0 <= inject_Z (Image.width combined))%Q).
    { change 0%Q with (inject_Z 0). rewrite <- Zle_Qle. exact Hw. }
    rewrite int_floor by nra.
    assert (Qfloor (inject_Z (Image.width combined) * sc)
            <= Image.width combined).
    { rewrite <- (Qfloor_Z (Image.width combined)) at 2.
      apply Qfloor_resp_le. nra. }
    lia.
  - assert (Hq : (inject_Z (Image.width combined) <= 0)%Q).
    { change 0%Q with (inject_Z 0). rewrite <- Zle_Qle. lia. }
    assert (Hneg : Py.int (inject_Z (Image.width combined) * sc)
                   = - Py.int (- (inject_Z (Image.width combined) * sc)))
      by (rewrite int_opp; lia).
    rewrite Hneg, int_floor by nra.
    assert (0 <= Qfloor (- (inject_Z (Image.width combined) * sc))).
    { change 0 with (Qfloor 0). apply Qfloor_resp_le. nra. }
    lia.
Qed.

Lemma flip_scale_x_unit (s : Viewer) :
  progress_ok s -> (0 <= flip_scale_x s <= 1)%Q.
Proof.
  intros [H0 H1]. split.
  - pose proof (flip_scale_x_floor s). lra.
  - rewrite (flip_scale_x_spec s (conj H0 H1)).
    destruct (0 <? animation_direction s); apply Q.max_lub; lra.
Qed.

Section FlipFrames.

Variable fitz_open : string -> option (list fitz.Page).
Variable get_pixmap : fitz.Page -> Q -> Z * Z.

Lemma animate_flip_keeps_setting (b : bool) (d w h : Z) :
  invariant (flip_setting b d w h) (_animate_flip get_pixmap).
Proof. unfold_handlers; inv_auto; intros s H; exact H. Qed.

Lemma tick_keeps_setting (b : bool) (d w h : Z) :
  invariant (flip_setting b d w h) (handle fitz_open get_pixmap EvAfter).
Proof. unfold_handlers; inv_auto; intros s H; exact H. Qed.

Lemma ticks_keep_setting (k : nat) (st : Viewer) (b : bool) (d w h : Z) :
  flip_setting b d w h st ->
  flip_setting b d w h
    (Nat.iter k (fun st => step fitz_open get_pixmap st EvAfter) st).
Proof.
  intros H. induction k as [|k IH]; [exact H|].
  rewrite Nat.iter_succ. apply (tick_keeps_setting b d w h). exact IH.
Qed.

(** The frame of the tick that takes the progress from [n * 0.15] to
    [(n + 1) * 0.15]. *)
Lemma flip_tick_frame (s pre : Viewer) (t : Z) (n : nat) :
  renderable pre = true ->
  page_count pre = page_count s -> page_index pre = page_index s ->
  target_page_index pre = Some t ->
  flip_setting (dual_page_mode s) (animation_direction pre)
    (canvas_width s) (canvas_height s) pre ->
  valid_index s (page_index s) = true -> valid_index s t = true ->
  animation_progress pre == inject_Z (Z.of_nat n) * 0.15 -> (n <= 5)%nat ->
  exists combined,
    map fst (Image.shows combined)
    = pages_to_render s (if (n <=? 2)%nat then page_index s else t)
    /\ let post := final (_animate_flip get_pixmap pre) in
       let w := flip_new_width combined (flip_scale_x post) in
       canvas_image post
       = Some ((canvas_width s - w) / 2,
               (canvas_height s - Image.height combined) / 2,
               Image.resize combined w (Image.height combined)).
Proof.
  intros Hr Hpc Hpi Ht (Hdual & _ & Hcw & Hch) Hi Hv Hprog Hn.
  assert (Hq : (0 <= inject_Z (Z.of_nat n) <= 5)%Q).
  { change 0%Q with (inject_Z 0). change 5%Q with (inject_Z 5).
    rewrite <- !Zle_Qle. lia. }
  set (s1 := set_animation_progress (animation_progress pre + 0.15)%Q pre).
  assert (Hi' : valid_index pre (page_index pre) = true).
  { unfold valid_index. rewrite Hpi, Hpc. exact Hi. }
  assert (Hv' : valid_index pre t = true).
  { unfold valid_index. rewrite Hpc. exact Hv. }
  destruct (render_flip_frame_ok get_pixmap s1 t Hr Hi' Ht Hv')
    as (imgs & _ & _ & Hshows & Hframe).
  cbv zeta in Hframe.
  exists (combined_of imgs). split.
  - rewrite Hshows. unfold pages_to_render.
    cbn [s1 dual_page_mode page_count page_index animation_progress
         set_animation_progress].
    rewrite Hdual, Hpc, Hpi.
    destruct (Qlt_le_dec (animation_progress pre + 0.15) 0.5) as [Hlt|Hge],
             (Nat.leb_spec n 2) as [Hle|Hgt]; try reflexivity; exfalso.
    + assert (3 <= inject_Z (Z.of_nat n))%Q.
      { change 3%Q with (inject_Z 3). rewrite <- Zle_Qle. lia. }
      lra.
    + assert (inject_Z (Z.of_nat n) <= 2)%Q.
      { change 2%Q with (inject_Z 2). rewrite <- Zle_Qle. lia. }
      lra.
  - assert (Hrun : exists m,
               _animate_flip get_pixmap pre
               = Ok tt
                   (set_after_pending m
                      (set_canvas_image
                         (Some
                            ((canvas_width s1
                              - flip_new_width (combined_of imgs)
                                  (flip_scale_x s1)) / 2,
                             (canvas_height s1
                              - Image.height (combined_of imgs)) / 2,
                             Image.resize (combined_of imgs)
                               (flip_new_width (combined_of imgs)
                                  (flip_scale_x s1))
                               (Image.height (combined_of imgs))))
                         s1))).
    { unfold _animate_flip, bind, modify. rewrite minQ_below by lra.
      fold s1. rewrite Hframe. unfold get.
      cbn [animation_progress set_canvas_image s1 set_animation_progress].
      destruct (Qle_bool 1.0 (animation_progress pre + 0.15)) eqn:E.
      { apply Qle_bool_iff in E. lra. }
      eexists. reflexivity. }
    destruct Hrun as (m & Hrun). cbv zeta. rewrite Hrun. cbn [final].
    unfold flip_scale_x.
    cbn [s1 canvas_image canvas_width canvas_height animation_progress
         animation_direction set_after_pending set_canvas_image
         set_animation_progress].
    rewrite Hcw, Hch. reflexivity.
Qed.

(** X19. What a flip shows. Of the six frames drawn before the flip
    completes, the first three show the source page, or spread, and the
    last three the target. Each frame is the composed image at its own
    height, resized to the width max(1, int(width * scale_x)) that the code
    computes from the stored progress and direction, which is at least one
    pixel and never more than the width of the composed image, and it is
    centred in the canvas. *)
Theorem flip_shows_source_then_target (s : Viewer) (t direction : Z)
    (k : nat) :
  renderable s = true -> valid_index s (page_index s) = true ->
  valid_index s t = true -> t <> page_index s ->
  after_pending s = 0%nat -> (k <= 5)%nat ->
  let frame :=
    Nat.iter k (fun st => step fitz_open get_pixmap st EvAfter)
      (final (_start_flip_animation get_pixmap t direction s)) in
  exists combined,
    map fst (Image.shows combined)
    = pages_to_render s (if (k <=? 2)%nat then page_index s else t)
    /\ let w := flip_new_width combined (flip_scale_x frame) in
       canvas_image frame
       = Some ((canvas_width s - w) / 2,
               (canvas_height s - Image.height combined) / 2,
               Image.resize combined w (Image.height combined))
       /\ 1 <= w <= Z.max 1 (Image.width combined).
Proof.
  intros Hr Hi Hv Hne Hpend Hk frame.
  assert (Hunit : (0 <= flip_scale_x frame <= 1)%Q).
  { destruct (flip_running_after fitz_open get_pixmap s t direction k
                Hr Hi Hv Hne Hpend Hk) as (_ & _ & _ & _ & _ & _ & Hprog).
    cbv zeta in Hprog. fold frame in Hprog.
    apply flip_scale_x_unit. unfold progress_ok.
    assert (0 <= inject_Z (Z.of_nat (S k)) <= 6)%Q.
    { change 0%Q with (inject_Z 0). change 6%Q with (inject_Z 6).
      rewrite <- !Zle_Qle. lia. }
    rewrite Hprog. lra. }
  assert (Hstart : exists st0,
             _start_flip_animation get_pixmap t direction s
             = _animate_flip get_pixmap st0
             /\ renderable st0 = true
             /\ page_count st0 = page_count s /\ page_index st0 = page_index s
             /\ target_page_index st0 = Some t
             /\ flip_setting (dual_page_mode s) direction
                  (canvas_width s) (canvas_height s) st0
             /\ animation_progress st0 = 0.0%Q).
  { unfold _start_flip_animation, bind, get, modify.
    destruct (Z.eqb_spec t (page_index s)) as [E|_]; [contradiction|].
    eexists. split; [reflexivity|]. split; [exact Hr|].
    do 3 (split; [reflexivity|]). split; [|reflexivity].
    unfold flip_setting. repeat split. }
  destruct Hstart as (st0 & Hstart & Hr0 & Hpc0 & Hpi0 & Ht0 & Hset0 & Hp0).
  assert (Hframe : exists combined,
             map fst (Image.shows combined)
             = pages_to_render s (if (k <=? 2)%nat then page_index s else t)
             /\ canvas_image frame
                = Some ((canvas_width s
                         - flip_new_width combined (flip_scale_x frame)) / 2,
                        (canvas_height s - Image.height combined) / 2,
                        Image.resize combined
                          (flip_new_width combined (flip_scale_x frame))
                          (Image.height combined))).
  { destruct k as [|k].
    - subst frame. cbn [Nat.iter nat_rect]. rewrite Hstart.
      assert (Hd0 : animation_direction st0 = direction)
        by (destruct Hset0 as (_ & H & _); exact H).
      rewrite <- Hd0 in Hset0.
      destruct (flip_tick_frame s st0 t 0 Hr0 Hpc0 Hpi0 Ht0 Hset0 Hi Hv)
        as (combined & Hshows & Hcanvas).
      { rewrite Hp0. reflexivity. }
      { lia. }
      exists combined. split; [exact Hshows | exact Hcanvas].
    - destruct (flip_running_after fitz_open get_pixmap s t direction k
                  Hr Hi Hv Hne Hpend ltac:(lia))
        as (Hr' & Hpc & Hpi & Ht & _ & Hp & Hprog).
      cbv zeta in Hr', Hpc, Hpi, Ht, Hp, Hprog.
      assert (Hset : flip_setting (dual_page_mode s) direction
                       (canvas_width s) (canvas_height s)
                       (Nat.iter k
                          (fun st => step fitz_open get_pixmap st EvAfter)
                          (final (_start_flip_animation get_pixmap t
                                    direction s)))).
      { apply ticks_keep_setting. rewrite Hstart.
        apply animate_flip_keeps_setting. exact Hset0. }
      subst frame. rewrite Nat.iter_succ.
      set (st := Nat.iter k (fun st => step fitz_open get_pixmap st EvAfter)
                   (final (_start_flip_animation get_pixmap t direction s)))
        in *.
      unfold step. rewrite (handle_after fitz_open get_pixmap st 0 Hp).
      assert (Hd : animation_direction (set_after_pending 0 st) = direction)
        by (destruct Hset as (_ & H & _); exact H).
      assert (Hset' : flip_setting (dual_page_mode s)
                        (animation_direction (set_after_pending 0 st))
                        (canvas_width s) (canvas_height s)
                        (set_after_pending 0 st)).
      { rewrite Hd. exact Hset. }
      destruct (flip_tick_frame s (set_after_pending 0 st) t (S k)
                  Hr' Hpc Hpi Ht Hset' Hi Hv)
        as (combined & Hshows & Hcanvas).
      { exact Hprog. }
      { exact Hk. }
      exists combined. split; [exact Hshows | exact Hcanvas]. }
  destruct Hframe as (combined & Hshows & Hcanvas).
  exists combined. split; [exact Hshows|]. cbv zeta.
  split; [exact Hcanvas|]. apply flip_new_width_narrow. exact Hunit.
Qed.

End FlipFrames.

(** ** Resizing the window *)

Section Resizing.

Variable fitz_open : string -> option (list fitz.Page).
Variable get_pixmap : fitz.Page -> Q -> Z * Z.

(** X20. A new canvas size redraws only in fit mode. With fit mode off, or
    with no document (or one without pages), the Configure binding changes
    nothing but the size: the image stays at its old offset and is no
    longer centred. With fit mode on and a renderable document it draws the
    stored page, or spread, centred in the new size, also in the middle of
    a flip; page, zoom and modes are never touched. *)
Theorem resize_redraws_only_in_fit_mode (s : Viewer) (w h : Z) :
  let resized := set_canvas_width w (set_canvas_height h s) in
  (fit_mode s && doc_truthy s = false ->
   handle fitz_open get_pixmap (EvConfigure w h) s = Ok tt resized)
  /\ (fit_mode s = true -> renderable s = true ->
      valid_index s (page_index s) = true ->
      exists img,
        map fst (Image.shows img) = pages_to_render s (page_index s)
        /\ handle fitz_open get_pixmap (EvConfigure w h) s
           = Ok tt (set_canvas_image
                      (Some ((w - Image.width img) / 2,
                             (h - Image.height img) / 2, img))
                      resized)).
Proof.
  intros resized. split.
  - intros Hoff. cbn [handle]. unfold bind, modify, get. fold resized.
    change (fit_mode resized && doc_truthy resized)
      with (fit_mode s && doc_truthy s).
    rewrite Hoff. reflexivity.
  - intros Hfit Hr Hi.
    destruct (render_frame get_pixmap resized Hr Hi) as (img & Hshows & Hrender).
    exists img. split; [exact Hshows|].
    cbn [handle]. unfold bind, modify, get. fold resized.
    change (fit_mode resized) with (fit_mode s). rewrite Hfit.
    rewrite (renderable_truthy resized _ Hr Hi). cbn [andb].
    apply (Hrender resized eq_refl).
Qed.

End Resizing.

Lemma flip_shows_source_then_target_witness :
  let s := Example.opened in
  let frame :=
    Nat.iter 3 (fun st => step Example.opener Example.pixmap st EvAfter)
      (final (_start_flip_animation Example.pixmap 1 1 s)) in
  exists combined,
    map fst (Image.shows combined)
    = pages_to_render s (if (3 <=? 2)%nat then page_index s else 1)
    /\ let w := flip_new_width combined (flip_scale_x frame) in
       canvas_image frame
       = Some ((canvas_width s - w) / 2,
               (canvas_height s - Image.height combined) / 2,
               Image.resize combined w (Image.height combined))
       /\ 1 <= w <= Z.max 1 (Image.width combined).
Proof.
  pose proof (flip_shows_source_then_target Example.opener Example.pixmap
                Example.opened 1 1 3) as H.
  cbv zeta in H |- *. apply H.
  - vm_compute. reflexivity.
  - vm_compute. reflexivity.
  - vm_compute. reflexivity.
  - vm_compute. discriminate.
  - vm_compute. reflexivity.
  - lia.
Defined.
